(** * CodeQuest2017: the test_cq.py grading harness

    A shallow embedding of [test_cq.py]: discovery of the problem files
    ([get_cq_files]), grouping by problem number ([group_cq_files]), the
    verifier ([check_solution]) and the registration of the generated test
    methods ([create_test_funcs], [main]).

    Conventions of the embedding.
    - A Python [str] is a Rocq [string]; characters are the code points
      below 256.
    - A [dict] is a [gmap], a [set] a [gset]; a list is a [list].
    - Code that touches the file system, spawns a process or raises runs in
      the monad [M]: a state monad over [world] whose results are either a
      value or a raised exception.  What was written before an exception is
      raised stays written.
    - Calls to the [logging] module only emit log records and are left out;
      [log_func_decorator] returns what the wrapped function returns and
      re-raises what it raises, so a decorated function is modelled by its
      body.
    - The library functions the harness calls ([re], [difflib], [os.path],
      [shutil], [tempfile]) are modelled after CPython 3 on a POSIX system;
      [difflib] follows the module of CPython 3.11 line by line. *)

From Stdlib Require Import Ascii QArith.
From stdpp Require Import gmap strings list sorting.

Local Open Scope Z_scope.
Local Open Scope nat_scope.

(** ** Python strings *)

Module Py.

Definition LF : ascii := "010"%char.
Definition CR : ascii := "013"%char.

(** [s.startswith(p)] *)
Fixpoint startswith (s p : string) : bool :=
  match p, s with
  | EmptyString, _ => true
  | String c p', String d s' => bool_decide (c = d) && startswith s' p'
  | String _ _, EmptyString => false
  end.

(** [s.replace(old, new)] for a non-empty [old]: occurrences are replaced
    from left to right and do not overlap.  [skip] counts the characters
    of an occurrence that are still to be dropped. *)
Fixpoint replace_from (skip : nat) (old new s : string) : string :=
  match s with
  | EmptyString => EmptyString
  | String c s' =>
      match skip with
      | S n => replace_from n old new s'
      | O =>
          if startswith s old
          then new +:+ replace_from (pred (String.length old)) old new s'
          else String c (replace_from O old new s')
      end
  end.

Definition replace (s old new : string) : string := replace_from O old new s.

(** The code point of a character is one of [codes]. *)
Definition code_in (codes : list nat) (c : ascii) : bool :=
  existsb (Nat.eqb (nat_of_ascii c)) codes.

(** The line boundaries of [str.splitlines] among the code points below
    256: LF, VT, FF, CR, FS, GS, RS and NEL. *)
Definition is_linebreak (c : ascii) : bool :=
  code_in [10; 11; 12; 13; 28; 29; 30; 133] c.

Definition next_is_LF (s : string) : bool :=
  match s with
  | String c _ => bool_decide (c = LF)
  | EmptyString => false
  end.

(** [s.splitlines(True)]: the lines of [s], each with its line end; CR LF
    is one boundary.  [cur] is the line read so far. *)
Fixpoint splitlines_go (cur : string) (s : string) : list string :=
  match s with
  | EmptyString => if bool_decide (cur = "") then [] else [cur]
  | String c s' =>
      let cur' := cur +:+ String c "" in
      if is_linebreak c && negb (bool_decide (c = CR) && next_is_LF s')
      then cur' :: splitlines_go "" s'
      else splitlines_go cur' s'
  end.

Definition splitlines (s : string) : list string := splitlines_go "" s.

(** [''.join(l)] *)
Definition join (l : list string) : string := String.concat "" l.

(** Text files are opened with [open(path, 'r')]: universal newlines, so
    CR LF and a lone CR are both read as LF. *)
Fixpoint universal_newlines (s : string) : string :=
  match s with
  | EmptyString => EmptyString
  | String c s' =>
      if bool_decide (c = CR)
      then if next_is_LF s' then universal_newlines s'
           else String LF (universal_newlines s')
      else String c (universal_newlines s')
  end.

(** [s[i:]] and [s[:i]] *)
Fixpoint drop (i : nat) (s : string) : string :=
  match i, s with
  | S n, String _ s' => drop n s'
  | _, _ => s
  end.

Fixpoint take (i : nat) (s : string) : string :=
  match i, s with
  | S n, String c s' => String c (take n s')
  | _, _ => EmptyString
  end.

(** [s[i:j]] for [0 <= i <= j] *)
Definition slice (i j : nat) (s : string) : string := take (j - i) (drop i s).

(** [s.rfind('/') + 1]: the position after the last slash, 0 without one.
    [n] is the position of the head of [s]. *)
Fixpoint after_last_slash (n : nat) (s : string) : nat :=
  match s with
  | EmptyString => O
  | String c s' =>
      let r := after_last_slash (S n) s' in
      if bool_decide (c = "/"%char) then (if r =? 0 then S n else r) else r
  end.

(** [posixpath.basename] *)
Definition basename (p : string) : string := drop (after_last_slash O p) p.

Fixpoint all_slashes (s : string) : bool :=
  match s with
  | EmptyString => true
  | String c s' => bool_decide (c = "/"%char) && all_slashes s'
  end.

(** [s.rstrip('/')] *)
Fixpoint rstrip_slash (s : string) : string :=
  match s with
  | EmptyString => EmptyString
  | String c s' => if all_slashes s then EmptyString else String c (rstrip_slash s')
  end.

(** [posixpath.dirname] *)
Definition dirname (p : string) : string :=
  let head := take (after_last_slash O p) p in
  if negb (bool_decide (head = "")) && negb (all_slashes head)
  then rstrip_slash head else head.

(** The value of a decimal digit, [0] to [9]. *)
Definition digit_val (c : ascii) : option Z :=
  let code := nat_of_ascii c in
  if (48 <=? code) && (code <=? 57) then Some (Z.of_nat (code - 48)) else None.

(** White space in the sense of [str.isspace], below 256: TAB, LF, VT, FF,
    CR, FS, GS, RS, US, the space, NEL and the no-break space. *)
Definition isspace (c : ascii) : bool :=
  code_in [9; 10; 11; 12; 13; 28; 29; 30; 31; 32; 133; 160] c.

(** [s.lstrip()] and [s.rstrip()], for the characters that [space] holds
    for. *)
Fixpoint lstrip_with (space : ascii → bool) (s : string) : string :=
  match s with
  | String c s' => if space c then lstrip_with space s' else s
  | EmptyString => EmptyString
  end.

Fixpoint all_with (space : ascii → bool) (s : string) : bool :=
  match s with
  | EmptyString => true
  | String c s' => space c && all_with space s'
  end.

Fixpoint rstrip_with (space : ascii → bool) (s : string) : string :=
  match s with
  | EmptyString => EmptyString
  | String c s' =>
      if all_with space s then EmptyString else String c (rstrip_with space s')
  end.

(** [s.rstrip()] *)
Definition rstrip (s : string) : string := rstrip_with isspace s.

(** The white space that [int] skips around the digits.  In a string of
    ASCII characters it is TAB, LF, VT, FF, CR and the space; a string with
    another character first has all its white space, in the sense of
    [str.isspace], turned into spaces. *)
Definition int_space (s : string) : ascii → bool :=
  if all_with (λ c, nat_of_ascii c <? 128) s
  then code_in [9; 10; 11; 12; 13; 32]
  else isspace.

(** The digits of an integer literal: one or more digits, single
    underscores allowed between digits.  [acc] is the value read so far,
    [prev_digit] tells whether the previous character was a digit. *)
Fixpoint int_digits (acc : Z) (prev_digit : bool) (s : string) : option Z :=
  match s with
  | EmptyString => if prev_digit then Some acc else None
  | String c s' =>
      match digit_val c with
      | Some d => int_digits (10 * acc + d)%Z true s'
      | None =>
          if bool_decide (c = "_"%char) && prev_digit
          then int_digits acc false s'
          else None
      end
  end.

(** [int(s)] in base 10; [None] stands for [ValueError]. *)
Definition int (s : string) : option Z :=
  match rstrip_with (int_space s) (lstrip_with (int_space s) s) with
  | String "-" s' => Z.opp <$> int_digits 0%Z false s'
  | String "+" s' => int_digits 0%Z false s'
  | s' => int_digits 0%Z false s'
  end.

Definition digit_char (d : nat) : ascii := ascii_of_nat (48 + d).

(** Decimal digits of a natural number, most significant first. *)
Fixpoint nat_digits (fuel n : nat) (acc : string) : string :=
  match fuel with
  | O => acc
  | S f =>
      let acc' := String (digit_char (n mod 10)) acc in
      if n / 10 =? 0 then acc' else nat_digits f (n / 10) acc'
  end.

Definition str_nat (n : nat) : string := nat_digits (S n) n "".

(** ["{:02d}".format(n)]: decimal, sign included, padded with zeros after
    the sign to a width of two. *)
Definition format_02d (n : Z) : string :=
  let body := str_nat (Z.abs_nat n) in
  if (n <? 0)%Z then "-" +:+ body
  else if String.length body <? 2 then "0" +:+ body else body.

(** [sorted(l)] on strings: ascending code-point order. *)
Fixpoint insert_sorted (x : string) (l : list string) : list string :=
  match l with
  | [] => [x]
  | y :: l' => if String.leb x y then x :: l else y :: insert_sorted x l'
  end.

Fixpoint sorted (l : list string) : list string :=
  match l with
  | [] => []
  | x :: l' => insert_sorted x (sorted l')
  end.

End Py.

(** ** Regular expressions ([re]) *)

Module Re.

(** The fragment of the pattern language that [REGEX_PATTERN] uses. *)
Inductive regex : Type :=
| Empty                              (* matches nothing *)
| Eps                                (* the empty string *)
| Chr (c : ascii)                    (* a literal character, [\.] *)
| Range (lo hi : ascii)              (* [[lo-hi]] *)
| Cat (r1 r2 : regex)                (* [r1 r2] *)
| Alt (r1 r2 : regex).               (* [r1|r2] *)

(** [r{n}]: [n] copies of [r] in sequence. *)
Fixpoint rep (n : nat) (r : regex) : regex :=
  match n with
  | O => Eps
  | S n' => Cat r (rep n' r)
  end.

Fixpoint lit (s : string) : regex :=
  match s with
  | EmptyString => Eps
  | String c s' => Cat (Chr c) (lit s')
  end.

Fixpoint nullable (r : regex) : bool :=
  match r with
  | Empty => false
  | Eps => true
  | Chr _ => false
  | Range _ _ => false
  | Cat r1 r2 => nullable r1 && nullable r2
  | Alt r1 r2 => nullable r1 || nullable r2
  end.

Definition in_range (lo hi c : ascii) : bool :=
  (nat_of_ascii lo <=? nat_of_ascii c) && (nat_of_ascii c <=? nat_of_ascii hi).

(** The residual of [r] after reading [c]. *)
Fixpoint deriv (c : ascii) (r : regex) : regex :=
  match r with
  | Empty => Empty
  | Eps => Empty
  | Chr d => if bool_decide (c = d) then Eps else Empty
  | Range lo hi => if in_range lo hi c then Eps else Empty
  | Cat r1 r2 =>
      if nullable r1
      then Alt (Cat (deriv c r1) r2) (deriv c r2)
      else Cat (deriv c r1) r2
  | Alt r1 r2 => Alt (deriv c r1) (deriv c r2)
  end.

(** [pattern.match(s) is not None]: the pattern matches at the start of
    [s]; the match need not reach the end of [s]. *)
Fixpoint match_ (r : regex) (s : string) : bool :=
  nullable r ||
  match s with
  | EmptyString => false
  | String c s' => match_ (deriv c r) s'
  end.

(** [pattern.fullmatch(s) is not None]: all of [s] is matched. *)
Fixpoint fullmatch (r : regex) (s : string) : bool :=
  match s with
  | EmptyString => nullable r
  | String c s' => fullmatch (deriv c r) s'
  end.

End Re.

(** ** Sequence comparison ([difflib]) *)

Module Difflib.

(** A matching block [(i, j, k)]: [a[i:i+k] == b[j:j+k]]. *)
Definition block : Type := nat * nat * nat.

Inductive tag : Type := Replace | Delete | Insert | Equal.

Definition opcode : Type := tag * nat * nat * nat * nat.

(** Tuples are ordered lexicographically ([matching_blocks.sort()]). *)
Definition block_leb (x y : block) : bool :=
  let '(i1, j1, k1) := x in
  let '(i2, j2, k2) := y in
  (i1 <? i2) || ((i1 =? i2) && ((j1 <? j2) || ((j1 =? j2) && (k1 <=? k2)))).

Fixpoint insert_block (x : block) (l : list block) : list block :=
  match l with
  | [] => [x]
  | y :: l' => if block_leb x y then x :: l else y :: insert_block x l'
  end.

Fixpoint sort_blocks (l : list block) : list block :=
  match l with
  | [] => []
  | x :: l' => insert_block x (sort_blocks l')
  end.

(** Adjacent blocks are merged; [(i1, j1, k1)] is the block being grown. *)
Fixpoint collapse (i1 j1 k1 : nat) (blocks : list block) : list block :=
  match blocks with
  | [] => if k1 =? 0 then [] else [(i1, j1, k1)]
  | (i2, j2, k2) :: rest =>
      if (i1 + k1 =? i2) && (j1 + k1 =? j2)
      then collapse i1 j1 (k1 + k2) rest
      else (if k1 =? 0 then [] else [(i1, j1, k1)]) ++ collapse i2 j2 k2 rest
  end.

(** [get_opcodes]: the edit script read off the matching blocks; [i] and
    [j] are the positions reached in [a] and [b]. *)
Fixpoint opcodes_from (i j : nat) (blocks : list block) : list opcode :=
  match blocks with
  | [] => []
  | (ai, bj, size) :: rest =>
      (if (i <? ai) && (j <? bj) then [(Replace, i, ai, j, bj)]
       else if i <? ai then [(Delete, i, ai, j, bj)]
       else if j <? bj then [(Insert, i, ai, j, bj)]
       else []) ++
      (if size =? 0 then [] else [(Equal, ai, ai + size, bj, bj + size)]) ++
      opcodes_from (ai + size) (bj + size) rest
  end.

(** [_calculate_ratio].  The source computes the float [2.0 * matches /
    length]; the embedding keeps the exact quotient.  Two such quotients
    with denominators below [2^26] are ordered as their floats are. *)
Definition calculate_ratio (matches length : nat) : Q :=
  if length =? 0 then 1%Q
  else Qmake (2 * Z.of_nat matches) (Pos.of_nat length).

Definition Qgtb (x y : Q) : bool :=
  match Qcompare x y with Gt => true | _ => false end.

Definition Qltb (x y : Q) : bool :=
  match Qcompare x y with Lt => true | _ => false end.

(** [SequenceMatcher(None, a, b)]: no junk predicate, [autojunk] on. *)
Section SequenceMatcher.
Context {A : Type} `{EqDecision A}.

(** The positions of [x] in [b], ascending; [n] is the position of the
    head of [b]. *)
Fixpoint indices_from (n : nat) (x : A) (b : list A) : list nat :=
  match b with
  | [] => []
  | y :: b' =>
      if decide (y = x) then n :: indices_from (S n) x b'
      else indices_from (S n) x b'
  end.

(** [__chain_b]: with 200 elements or more, an element that makes up
    more than 1% of [b] (plus one) is popular and loses its entry. *)
Definition popular (b : list A) (x : A) : bool :=
  (200 <=? length b) &&
  (length b / 100 + 1 <? length (indices_from 0 x b)).

(** [b2j.get(x, [])] *)
Definition b2j (b : list A) (x : A) : list nat :=
  if popular b x then [] else indices_from 0 x b.

(** [j2len.get(j - 1, 0)] *)
Definition j2lenget (j2len : gmap nat nat) (j : nat) : nat :=
  match j with
  | O => O
  | S j' => default O (j2len !! j')
  end.

(** The inner loop of [find_longest_match] for row [i]: [js] is what is
    left of [b2j[a[i]]]. *)
Fixpoint scan_row (js : list nat) (i blo bhi : nat)
    (j2len newj2len : gmap nat nat) (best : block)
    : gmap nat nat * block :=
  match js with
  | [] => (newj2len, best)
  | j :: js' =>
      if j <? blo then scan_row js' i blo bhi j2len newj2len best
      else if bhi <=? j then (newj2len, best)
      else
        let k := j2lenget j2len j + 1 in
        scan_row js' i blo bhi j2len (<[j:=k]> newj2len)
          (if best.2 <? k then (i + 1 - k, j + 1 - k, k) else best)
  end.

(** The outer loop, [for i in range(alo, ahi)]; the state is [j2len]
    and the best block so far.  ([a[i]] is always in range.) *)
Definition scan_rows (a b : list A) (alo ahi blo bhi : nat)
    : gmap nat nat * block :=
  fold_left
    (λ st i,
       match a !! i with
       | Some x => scan_row (b2j b x) i blo bhi st.1 ∅ st.2
       | None => st
       end)
    (seq alo (ahi - alo)) (∅, (alo, blo, 0)).

(** [a[i] == b[j]] *)
Definition same_at (a : list A) (i : nat) (b : list A) (j : nat) : bool :=
  match a !! i, b !! j with
  | Some x, Some y => bool_decide (x = y)
  | _, _ => false
  end.

(** The block is extended to the left while the elements before it
    agree.  (Without a junk predicate [isbjunk] is never true.) *)
Fixpoint extend_left (a b : list A) (alo blo besti bestj bestsize : nat)
    {struct besti} : block :=
  match besti, bestj with
  | S i', S j' =>
      if (alo <? S i') && (blo <? S j') && same_at a i' b j'
      then extend_left a b alo blo i' j' (S bestsize)
      else (besti, bestj, bestsize)
  | _, _ => (besti, bestj, bestsize)
  end.

(** And to the right; the loop runs at most [ahi - (besti + bestsize)]
    times, which is the [fuel]. *)
Fixpoint extend_right (fuel : nat) (a b : list A)
    (ahi bhi besti bestj bestsize : nat) : nat :=
  match fuel with
  | O => bestsize
  | S f =>
      if (besti + bestsize <? ahi) && (bestj + bestsize <? bhi)
         && same_at a (besti + bestsize) b (bestj + bestsize)
      then extend_right f a b ahi bhi besti bestj (S bestsize)
      else bestsize
  end.

(** [find_longest_match(alo, ahi, blo, bhi)].  The two closing loops of
    the source extend the block over junk and never run here. *)
Definition find_longest_match (a b : list A) (alo ahi blo bhi : nat)
    : block :=
  let '(besti, bestj, bestsize) := (scan_rows a b alo ahi blo bhi).2 in
  let '(besti, bestj, bestsize) :=
    extend_left a b alo blo besti bestj bestsize in
  (besti, bestj,
   extend_right (ahi - (besti + bestsize)) a b ahi bhi besti bestj bestsize).

(** The loop of [get_matching_blocks].  [queue.pop()] takes the entry
    appended last, so the head of [queue] is that entry.  [fuel] bounds
    the number of iterations; [None] means that it ran out. *)
Fixpoint match_loop (fuel : nat) (a b : list A)
    (queue : list (nat * nat * nat * nat)) (blocks : list block)
    : option (list block) :=
  match queue with
  | [] => Some blocks
  | (alo, ahi, blo, bhi) :: queue' =>
      match fuel with
      | O => None
      | S f =>
          let '(i, j, k) := find_longest_match a b alo ahi blo bhi in
          if k =? 0 then match_loop f a b queue' blocks
          else
            let q1 :=
              if (alo <? i) && (blo <? j)
              then (alo, i, blo, j) :: queue' else queue' in
            let q2 :=
              if (i + k <? ahi) && (j + k <? bhi)
              then (i + k, ahi, j + k, bhi) :: q1 else q1 in
            match_loop f a b q2 (blocks ++ [(i, j, k)])
      end
  end.

(** Every iteration that finds a block uses up an element of [a], and
    appends at most two entries: [2 * len(a) + 1] iterations at most. *)
Definition raw_blocks (a b : list A) : option (list block) :=
  match_loop (2 * length a + 1) a b [(0, length a, 0, length b)] [].

(** [get_matching_blocks]: the blocks found, sorted, adjacent ones merged,
    and the closing block of length 0.  ([raw_blocks] is never [None].) *)
Definition get_matching_blocks (a b : list A) : list block :=
  collapse 0 0 0 (sort_blocks (default [] (raw_blocks a b)))
  ++ [(length a, length b, 0)].

Definition get_opcodes (a b : list A) : list opcode :=
  opcodes_from 0 0 (get_matching_blocks a b).

(** [ratio()] *)
Definition ratio (a b : list A) : Q :=
  calculate_ratio (sum_list ((λ x : block, x.2) <$> get_matching_blocks a b))
                  (length a + length b).

Definition count (x : A) (b : list A) : nat := length (indices_from 0 x b).

(** [quick_ratio()]: [avail] maps an element to the number of its
    occurrences in [b] that are still unused. *)
Fixpoint quick_matches (a b : list A) (avail : A → option Z)
    (matches : nat) : nat :=
  match a with
  | [] => matches
  | elt :: a' =>
      let numb :=
        match avail elt with
        | Some n => n
        | None => Z.of_nat (count elt b)
        end in
      quick_matches a' b
        (λ y, if decide (y = elt) then Some (numb - 1)%Z else avail y)
        (if (0 <? numb)%Z then S matches else matches)
  end.

Definition quick_ratio (a b : list A) : Q :=
  calculate_ratio (quick_matches a b (λ _, None) 0) (length a + length b).

(** [real_quick_ratio()] *)
Definition real_quick_ratio (a b : list A) : Q :=
  calculate_ratio (length a `min` length b) (length a + length b).

End SequenceMatcher.

(** [Differ()]: neither a line-junk nor a character-junk predicate. *)

Definition chars (s : string) : list ascii := String.list_ascii_of_string s.

(** [_dump(tag, x, lo, hi)]: the lines [x[lo:hi]], each behind its tag and
    a space. *)
Definition dump (t : string) (x : list string) (lo hi : nat) : list string :=
  (λ l, t +:+ " " +:+ l) <$> take (hi - lo) (drop lo x).

(** [_plain_replace]: the shorter block first. *)
Definition plain_replace (a b : list string) (alo ahi blo bhi : nat)
    : list string :=
  if bhi - blo <? ahi - alo
  then dump "+" b blo bhi ++ dump "-" a alo ahi
  else dump "-" a alo ahi ++ dump "+" b blo bhi.

(** The state of the search in [_fancy_replace]: [best_ratio], the pair
    [(best_i, best_j)] once it is assigned, and [(eqi, eqj)]. *)
Definition search_state : Type := Q * option (nat * nat) * option (nat * nat).

Definition search_step (a : list string) (j : nat) (bj : string)
    (st : search_state) (i : nat) : search_state :=
  match a !! i with
  | None => st
  | Some ai =>
      let '(best_ratio, best, eq) := st in
      if bool_decide (ai = bj)
      then (best_ratio, best,
            match eq with None => Some (i, j) | Some _ => eq end)
      else
        if Qgtb (real_quick_ratio (chars ai) (chars bj)) best_ratio then
          if Qgtb (quick_ratio (chars ai) (chars bj)) best_ratio then
            if Qgtb (ratio (chars ai) (chars bj)) best_ratio
            then (ratio (chars ai) (chars bj), Some (i, j), eq)
            else st
          else st
        else st
  end.

Definition search (a b : list string) (alo ahi blo bhi : nat) : search_state :=
  fold_left
    (λ st j,
       match b !! j with
       | None => st
       | Some bj => fold_left (search_step a j bj) (seq alo (ahi - alo)) st
       end)
    (seq blo (bhi - blo)) ((74 # 100)%Q, None, None).

Fixpoint repeat_char (c : ascii) (n : nat) : string :=
  match n with
  | O => EmptyString
  | S n' => String c (repeat_char c n')
  end.

(** The marks under the two lines, from the opcodes of their characters. *)
Definition tags_step (st : string * string) (op : opcode) : string * string :=
  let '(atags, btags) := st in
  let '(t, ai1, ai2, bj1, bj2) := op in
  let la := ai2 - ai1 in
  let lb := bj2 - bj1 in
  match t with
  | Replace => (atags +:+ repeat_char "^" la, btags +:+ repeat_char "^" lb)
  | Delete => (atags +:+ repeat_char "-" la, btags)
  | Insert => (atags, btags +:+ repeat_char "+" lb)
  | Equal => (atags +:+ repeat_char " " la, btags +:+ repeat_char " " lb)
  end.

(** [_keep_original_ws] *)
Fixpoint keep_original_ws (s tag_s : string) : string :=
  match s, tag_s with
  | String c s', String t tag_s' =>
      String (if bool_decide (t = " "%char) && Py.isspace c then c else t)
             (keep_original_ws s' tag_s')
  | _, _ => EmptyString
  end.

Definition question (tags : string) : list string :=
  if bool_decide (tags = "") then []
  else ["? " +:+ tags +:+ String Py.LF ""].

(** [_qformat] *)
Definition qformat (aline bline atags btags : string) : list string :=
  ["- " +:+ aline] ++ question (Py.rstrip (keep_original_ws aline atags)) ++
  ["+ " +:+ bline] ++ question (Py.rstrip (keep_original_ws bline btags)).

(** [_fancy_replace], with [_fancy_helper] as the local [helper].  Each
    call works on a shorter range of [a] than its caller; [fuel] bounds
    the depth of the calls and [None] means that it ran out. *)
Fixpoint fancy_replace (fuel : nat) (a b : list string)
    (alo ahi blo bhi : nat) : option (list string) :=
  match fuel with
  | O => None
  | S f =>
      let helper (alo ahi blo bhi : nat) : option (list string) :=
        if alo <? ahi then
          if blo <? bhi then fancy_replace f a b alo ahi blo bhi
          else Some (dump "-" a alo ahi)
        else if blo <? bhi then Some (dump "+" b blo bhi)
        else Some [] in
      let '(best_ratio, best, eq) := search a b alo ahi blo bhi in
      if Qltb best_ratio (75 # 100)%Q then
        match eq with
        | None => Some (plain_replace a b alo ahi blo bhi)
        | Some (eqi, eqj) =>
            pre ← helper alo eqi blo eqj;
            aelt ← a !! eqi;
            post ← helper (eqi + 1) ahi (eqj + 1) bhi;
            Some (pre ++ ["  " +:+ aelt] ++ post)
        end
      else
        '(best_i, best_j) ← best;
        pre ← helper alo best_i blo best_j;
        aelt ← a !! best_i;
        belt ← b !! best_j;
        post ← helper (best_i + 1) ahi (best_j + 1) bhi;
        let '(atags, btags) :=
          fold_left tags_step (get_opcodes (chars aelt) (chars belt)) ("", "") in
        Some (pre ++ qformat aelt belt atags btags ++ post)
  end.

(** The lines that [compare] yields for one opcode. *)
Definition compare_opcode (a b : list string) (op : opcode) : list string :=
  let '(t, alo, ahi, blo, bhi) := op in
  match t with
  | Replace => default [] (fancy_replace (ahi - alo) a b alo ahi blo bhi)
  | Delete => dump "-" a alo ahi
  | Insert => dump "+" b blo bhi
  | Equal => dump " " a alo ahi
  end.

(** [Differ().compare(a, b)]: the delta, as the list of the lines that the
    generator yields. *)
Definition compare (a b : list string) : list string :=
  concat (compare_opcode a b <$> get_opcodes a b).

End Difflib.

(** ** The world: files, directories, processes *)

(** The exceptions that the harness and the library calls it makes raise.
    A message built with [str.format] is kept as its arguments. *)
Inductive exn : Type :=
| OSError (target_dir : string)
    (* "Given target directory '{}' either does not exist or is not a
       directory." *)
| FileNotFoundError (path : string)
| IsADirectoryError (path : string)
| ValueError (literal : string)
    (* "invalid literal for int() with base 10: {!r}" *)
| TypeError
| Exception (solution err : string)
    (* "An error occurred while executing '{}': '{}'" *)
| AssertionError (solution : string) (line_no : nat)
    (diff difference expected error_file : string)
    (* "Solution '{}' failed at line {}: {!r} (difference:  {!r},
       expected: {!r}). Wrote incorrect output to {}" *)
| StopIteration.

Inductive result (A : Type) : Type :=
| Ok (a : A)
| Raise (e : exn).

Arguments Ok {A} a.
Arguments Raise {A} e.

(** Paths are kept as the strings that the program passes to the system;
    relative ones are relative to the working directory. *)
Record world : Type := World {
  files : gmap string string;
    (* the regular files and their contents *)
  dirs : gmap string (list string);
    (* the directories, each with the names that [os.listdir] returns *)
  tmp_seq : nat;
    (* how many temporary directories [tempfile] has made *)
  spawned : list string
    (* the command lines run so far, the latest first *)
}.

Definition M (A : Type) : Type := world → result A * world.

Definition ret {A : Type} (a : A) : M A := λ w, (Ok a, w).

Definition raise {A : Type} (e : exn) : M A := λ w, (Raise e, w).

Definition bind {A B : Type} (k : A → M B) (m : M A) : M B :=
  λ w, match m w with
       | (Ok a, w') => k a w'
       | (Raise e, w') => (Raise e, w')
       end.

#[global] Instance M_ret : MRet M := @ret.
#[global] Instance M_bind : MBind M := @bind.

(** [open(path, 'r').read()] *)
Definition open_read (path : string) : M string :=
  λ w, if bool_decide (path ∈ dom (dirs w)) then (Raise (IsADirectoryError path), w)
       else match files w !! path with
            | Some raw => (Ok (Py.universal_newlines raw), w)
            | None => (Raise (FileNotFoundError path), w)
            end.

(** A file can be created in the working directory and in the directories
    that exist. *)
Definition creatable (path : string) (w : world) : bool :=
  bool_decide (Py.dirname path = "") || bool_decide (Py.dirname path ∈ dom (dirs w)).

Definition put_file (path contents : string) (w : world) : world :=
  World (<[path := contents]> (files w)) (dirs w) (tmp_seq w) (spawned w).

(** [open(path, 'w').write(contents)] *)
Definition open_write (path contents : string) : M unit :=
  λ w, if bool_decide (path ∈ dom (dirs w)) then (Raise (IsADirectoryError path), w)
       else if creatable path w then (Ok (), put_file path contents w)
       else (Raise (FileNotFoundError path), w).

(** [shutil.copyfile(src, dst)]: [dst] is the name of the copy, not the
    directory to put it in. *)
Definition copyfile (src dst : string) : M unit :=
  λ w, if bool_decide (src ∈ dom (dirs w)) then (Raise (IsADirectoryError src), w)
       else match files w !! src with
            | None => (Raise (FileNotFoundError src), w)
            | Some raw => open_write dst raw w
            end.

(** [tempfile.mkdtemp()]: a new, empty directory.  The names are numbered
    here; [tempfile] draws them at random. *)
Definition mkdtemp : M string :=
  λ w, let name := "/tmp/tmp" +:+ Py.str_nat (tmp_seq w) in
       (Ok name, World (files w) (<[name := []]> (dirs w)) (S (tmp_seq w)) (spawned w)).

(** [shutil.rmtree(d)]: the directory goes, and the files in it. *)
Definition rmtree (d : string) (w : world) : world :=
  World (filter (λ kv, ¬ Py.startswith kv.1 (d +:+ "/")) (files w))
        (delete d (dirs w)) (tmp_seq w) (spawned w).

(** [with tempfile.TemporaryDirectory() as d: body]: the directory is
    removed when the block is left, by its end or by an exception. *)
Definition with_TemporaryDirectory {A : Type} (body : string → M A) : M A :=
  λ w, match mkdtemp w with
       | (Ok d, w1) => let '(r, w2) := body d w1 in (r, rmtree d w2)
       | (Raise e, w1) => (Raise e, w1)
       end.

(** ** test_cq.py *)

(** [REGEX_PATTERN = "Prob[0-9]{2}\.((in|out)\.txt|py)"] *)
Definition REGEX_PATTERN : Re.regex :=
  Re.Cat (Re.lit "Prob")
    (Re.Cat (Re.rep 2 (Re.Range "0" "9"))
       (Re.Cat (Re.Chr ".")
          (Re.Alt
             (Re.Cat (Re.Alt (Re.lit "in") (Re.lit "out"))
                (Re.Cat (Re.Chr ".") (Re.lit "txt")))
             (Re.lit "py")))).

(** [get_cq_files(target_dir)] *)
Definition get_cq_files (target_dir : string) : M (gset string) :=
  λ w, match dirs w !! target_dir with
       | None => (Raise (OSError target_dir), w)
       | Some names =>
           (Ok (foldl (λ (matched : gset string) f,
                         if Re.match_ REGEX_PATTERN f
                         then matched ∪ {[f]} else matched)
                      ∅ names), w)
       end.

(** [get_prob_num = lambda x: os.path.basename(x)[4:6]] *)
Definition get_prob_num (x : string) : string := Py.slice 4 6 (Py.basename x).

(** One iteration of the loop of [group_cq_files].  [grouped.get(n)] is
    [None] for a new number, [None.append] raises and the bare [except]
    starts the list. *)
Definition group_step (grouped : gmap Z (list string)) (cq_file : string)
    : result (gmap Z (list string)) :=
  match Py.int (get_prob_num cq_file) with
  | None => Raise (ValueError (get_prob_num cq_file))
  | Some prob_num =>
      Ok match grouped !! prob_num with
         | Some l => <[prob_num := l ++ [cq_file]]> grouped
         | None => <[prob_num := [cq_file]]> grouped
         end
  end.

Fixpoint group_loop (grouped : gmap Z (list string)) (cq_files : list string)
    : result (gmap Z (list string)) :=
  match cq_files with
  | [] => Ok grouped
  | cq_file :: rest =>
      match group_step grouped cq_file with
      | Ok grouped' => group_loop grouped' rest
      | Raise e => Raise e
      end
  end.

(** [group_cq_files(cq_files)]; the argument is any iterable, here the list
    of what it yields. *)
Definition group_cq_files (cq_files : list string) : result (gmap Z (list string)) :=
  group_loop ∅ cq_files.

Definition dquote : ascii := ascii_of_nat 34.

(** ['"{}" {}'.format(path_to_python, solution_file)] *)
Definition command_line (path_to_python solution_file : string) : string :=
  String dquote path_to_python +:+ String dquote " " +:+ solution_file.

(** The world once the command line [cmd] has been run. *)
Definition ran (cmd : string) (w : world) : world :=
  World (files w) (dirs w) (tmp_seq w) (cmd :: spawned w).

Section Verifier.

(** [sys.executable] *)
Variable sys_executable : string.

(** What the process started for a command line writes to its standard
    output and to its standard error, as [p.communicate()] returns them,
    decoded.  It depends on the command line and on the files it finds. *)
Variable communicate : string → world → string * string.

(** [subprocess.Popen(cmd, shell=True, ...).communicate()] *)
Definition popen (cmd : string) : M (string * string) :=
  λ w, (Ok (communicate cmd w), ran cmd w).

(** [f.read().replace('\r', '').splitlines(True)] *)
Definition normalize (text : string) : list string :=
  Py.splitlines (Py.replace text (String Py.CR "") "").

Definition read_lines (path : string) : M (list string) :=
  contents ← open_read path;
  ret (normalize contents).

(** The loop over [enumerate(diffs, 1)].  [diffs] is what the generator
    has not yielded yet, so [next(diffs)] is its head. *)
Fixpoint compare_loop (in_file solution_file : string) (out : list string)
    (line_no : nat) (diffs : list string) : M unit :=
  match diffs with
  | [] => ret tt
  | diff :: diffs' =>
      if Py.startswith diff " "
      then compare_loop in_file solution_file out (S line_no) diffs'
      else
        let error_file := Py.replace in_file "in" "error" in
        _ ← open_write error_file (Py.join out);
        match diffs' with
        | d1 :: d2 :: _ =>
            raise (AssertionError (Py.basename solution_file) line_no diff
                     (Py.replace d1 " " "^") (Py.replace d2 " " "^")
                     error_file)
        | _ => raise StopIteration
        end
  end.

(** The staging of the files when [in_file] and [solution_file] are in
    different directories; the result is the new [in_file] and
    [solution_file].  (The directory of [tmpdir] is removed when that
    object is finalized, after the function is left.) *)
Definition stage (in_file out_file solution_file : string) : M (string * string) :=
  _tmpdir ← mkdtemp;
  with_TemporaryDirectory (λ tmpdirname,
    _ ← copyfile in_file tmpdirname;
    _ ← copyfile out_file tmpdirname;
    ret (Py.basename in_file +:+ "/" +:+ tmpdirname,
         Py.basename solution_file +:+ "/" +:+ tmpdirname)).

(** [check_solution(in_file, out_file, solution_file)] *)
Definition check_solution (in_file out_file solution_file : string) : M unit :=
  _ ← read_lines in_file;
  expected_out ← read_lines out_file;
  '(in_file, solution_file) ←
    (if bool_decide (Py.dirname in_file ≠ Py.dirname solution_file)
     then stage in_file out_file solution_file
     else ret (in_file, solution_file));
  '(out, err) ← popen (command_line sys_executable solution_file);
  if negb (String.length err =? 0)
  then raise (Exception (Py.basename solution_file) err)
  else
    let out := normalize out in
    compare_loop in_file solution_file out 1 (Difflib.compare out expected_out).

(** [check_solution_method(self)]: [check_solution] applied to the bound
    list, unpacked. *)
Definition check_solution_method (cq_files : list string) : M unit :=
  match cq_files with
  | [in_file; out_file; solution_file] =>
      check_solution in_file out_file solution_file
  | _ => raise TypeError
  end.

End Verifier.

(** The name of the method for a problem:
    ["test_prob{:02d}".format(prob_num)] *)
Definition test_name (prob_num : Z) : string :=
  "test_prob" +:+ Py.format_02d prob_num.

(** [create_test_funcs(grouped_cq_files)].  The class [TestSolutions] is the
    map from the names of its test methods to the files each is bound to;
    [setattr] adds a method or replaces the one of that name. *)
Definition create_test_funcs (grouped_cq_files : gmap Z (list string))
    (TestSolutions : gmap string (list string)) : gmap string (list string) :=
  map_fold
    (λ prob_num cq_files cls,
       if length cq_files =? 3
       then <[test_name prob_num := Py.sorted cq_files]> cls
       else cls)
    TestSolutions grouped_cq_files.

Definition lift {A : Type} (r : result A) : M A := λ w, (r, w).

(** [main()] up to the call of [unittest.main()]: the test methods of
    [TestSolutions].  [cwd] is [os.getcwd()].  Python does not fix the
    order in which a set is iterated: [set_order] is that order. *)
Definition main (set_order : gset string → list string) (cwd : string)
    : M (gmap string (list string)) :=
  cq_files ← get_cq_files cwd;
  grouped ← lift (group_cq_files (set_order cq_files));
  ret (create_test_funcs grouped ∅).

(** ** Notions used in the statements and proofs *)

(** The files of problem [n]: [Prob<NN>.in.txt], [Prob<NN>.out.txt] and
    [Prob<NN>.py], in the order of their roles. *)
Definition prob_file (n : nat) (ext : string) : string :=
  "Prob" +:+ Py.format_02d (Z.of_nat n) +:+ ext.

Definition triple (n : nat) : list string :=
  [prob_file n ".in.txt"; prob_file n ".out.txt"; prob_file n ".py"].

(** A file name, as a directory lists it, has no slash. *)
Definition no_slash (f : string) : Prop :=
  "/"%char ∉ String.list_ascii_of_string f.

(** [path] is a regular file that can be opened for reading. *)
Definition readable (path : string) (w : world) : Prop :=
  (path ∉ dom (dirs w)) ∧ is_Some (files w !! path).


(** The problem number that [group_cq_files] reads off a file name. *)
Definition prob_num (cq_file : string) : option Z :=
  Py.int (get_prob_num cq_file).


(** What holds of the state of the search in [_fancy_replace]: [best_i]
    and [best_j] are assigned when [best_ratio] has left its first value,
    and the lines they and [eqi] point to exist. *)
Definition search_inv (a b : list string) (alo ahi : nat)
    (st : Difflib.search_state) : Prop :=
  (st.1.2 = None → st.1.1 = (74 # 100)%Q) ∧
  (∀ i j, st.1.2 = Some (i, j) →
     alo ≤ i < ahi ∧ is_Some (a !! i) ∧ is_Some (b !! j)) ∧
  (∀ i j, st.2 = Some (i, j) → alo ≤ i < ahi ∧ is_Some (a !! i)).

(** What the proofs use of the names of problem [n], as a test that can be
    run for each of the hundred problem numbers. *)
Definition triple_ok (n : nat) : bool :=
  forallb (λ f, Re.match_ REGEX_PATTERN f
                && Re.fullmatch REGEX_PATTERN f
                && bool_decide (prob_num f = Some (Z.of_nat n))
                && bool_decide (Py.basename f = f)) (triple n)
  && bool_decide (Py.sorted (triple n) = triple n)
  && bool_decide (NoDup (triple n))
  && bool_decide (Py.format_02d (Z.of_nat n)
                  = String (Py.digit_char (n / 10))
                      (String (Py.digit_char (n mod 10)) ""))
  && bool_decide (Py.int (Py.format_02d (Z.of_nat n)) = Some (Z.of_nat n)).

Section Run.
Context {A : Type} `{EqDecision A}.
Variable a : list A.




End Run.

(** ** Example worlds *)

(** The line end, [\n]. *)
Definition nl : string := String Py.LF "".

(** A working directory with the three files of problem 1; the expected
    output is the two lines [A] and [C]. *)
Definition world_AC : world :=
  World (list_to_map [("Prob01.in.txt", "1" +:+ nl);
                      ("Prob01.out.txt", "A" +:+ nl +:+ "C" +:+ nl);
                      ("Prob01.py", "print('A'); print('C')" +:+ nl)])
        (list_to_map [(".", ["Prob01.in.txt"; "Prob01.out.txt"; "Prob01.py"])])
        0 [].

(** Solutions, by what they write. *)
Definition prints_AB (cmd : string) (w : world) : string * string :=
  ("A" +:+ nl +:+ "B" +:+ nl, "").

Definition prints_AC_crlf (cmd : string) (w : world) : string * string :=
  ("A" +:+ String Py.CR nl +:+ "C" +:+ String Py.CR nl, "").


Definition prints_nothing (cmd : string) (w : world) : string * string :=
  ("", "").

Definition prints_AC_blank (cmd : string) (w : world) : string * string :=
  ("A" +:+ nl +:+ "C" +:+ nl +:+ nl, "").

(** The input and the expected output in directory [a], the solution in
    directory [b]. *)
Definition world_two_dirs : world :=
  World (list_to_map [("a/Prob01.in.txt", "1" +:+ nl);
                      ("a/Prob01.out.txt", "A" +:+ nl +:+ "C" +:+ nl);
                      ("b/Prob01.py", "print('A'); print('C')" +:+ nl)])
        (list_to_map [("a", ["Prob01.in.txt"; "Prob01.out.txt"]);
                      ("b", ["Prob01.py"])])
        0 [].

(** A working directory where an editor left a copy of the solution of
    problem 3. *)
Definition world_backup : world :=
  World (list_to_map [("Prob03.in.txt", "1" +:+ nl);
                      ("Prob03.out.txt", "A" +:+ nl);
                      ("Prob03.py", "print('A')" +:+ nl);
                      ("Prob03.py.bak", "print('B')" +:+ nl)])
        (list_to_map [(".", ["Prob03.in.txt"; "Prob03.out.txt"; "Prob03.py";
                             "Prob03.py.bak"])])
        0 [].


(** ** Prob03.py *)

Module Prob03.

(** What ends the script early; the script catches nothing, so each of
    these reaches the interpreter, which prints a traceback. *)
Inductive error : Type :=
| OpenError (e : exn)
    (* [open('Prob03.in.txt', 'r')] raised *)
| InvalidLiteral (literal : string)
    (* ValueError: invalid literal for int() with base 10 *)
| NotEnoughValues (got : nat)
    (* ValueError: not enough values to unpack (expected 3, got [got]) *)
| TooManyValues.
    (* ValueError: too many values to unpack (expected 3) *)

(** [s.strip()] *)
Definition strip (s : string) : string :=
  Py.rstrip_with Py.isspace (Py.lstrip_with Py.isspace s).

(** [s.split(sep)] for a separator of one character; [cur] is the field
    read so far. *)
Fixpoint split_go (sep : ascii) (cur s : string) : list string :=
  match s with
  | EmptyString => [cur]
  | String c s' =>
      if bool_decide (c = sep) then cur :: split_go sep "" s'
      else split_go sep (cur +:+ String c "") s'
  end.

Definition split (sep : ascii) (s : string) : list string := split_go sep "" s.

(** The lines of a text file, each with its [\n]; the last one may lack
    it.  [cur] is the line read so far. *)
Fixpoint readlines_go (cur s : string) : list string :=
  match s with
  | EmptyString => if bool_decide (cur = "") then [] else [cur]
  | String c s' =>
      if bool_decide (c = Py.LF) then (cur +:+ String c "") :: readlines_go "" s'
      else readlines_go (cur +:+ String c "") s'
  end.

(** [in_file.readlines()] on a file read from its start *)
Definition readlines (text : string) : list string := readlines_go "" text.

(** [a, b, c = (int(_.strip()) for _ in parts)].  The generator is taken
    from one element at a time: the fields are converted in order, and a
    fourth field is converted before it is found to be one too many. *)
Definition unpack (parts : list string) : error + Z * Z * Z :=
  let int_strip (part : string) : error + Z :=
    match Py.int (strip part) with
    | Some n => inr n
    | None => inl (InvalidLiteral (strip part))
    end in
  match parts with
  | [] => inl (NotEnoughValues 0)
  | p1 :: parts1 =>
      match int_strip p1 with
      | inl e => inl e
      | inr a =>
          match parts1 with
          | [] => inl (NotEnoughValues 1)
          | p2 :: parts2 =>
              match int_strip p2 with
              | inl e => inl e
              | inr b =>
                  match parts2 with
                  | [] => inl (NotEnoughValues 2)
                  | p3 :: parts3 =>
                      match int_strip p3 with
                      | inl e => inl e
                      | inr c =>
                          match parts3 with
                          | [] => inr (a, b, c)
                          | p4 :: _ =>
                              match int_strip p4 with
                              | inl e => inl e
                              | inr _ => inl TooManyValues
                              end
                          end
                      end
                  end
              end
          end
      end
  end.

(** The right-hand side of line 9, for one line of the file. *)
Definition parse (line : string) : error + Z * Z * Z :=
  unpack (split "," (strip line)).

(** Lines 10 to 19: what is printed for the sides [a], [b], [c]. *)
Definition classify (a b c : Z) : string :=
  if (a + b >? c)%Z && (a + c >? b)%Z && (b + c >? a)%Z then
    if (a =? b)%Z && (b =? c)%Z then "Equilateral"
    else if ((a =? b)%Z && negb (b =? c)%Z)
            || ((b =? c)%Z && negb (c =? a)%Z)
            || ((c =? a)%Z && negb (a =? b)%Z) then "Isosceles"
    else "Scalene"
  else "Not a Triangle".

(** The loop of line 8; [stdout] is what has been printed so far. *)
Fixpoint loop (lines : list string) (stdout : string) : string * option error :=
  match lines with
  | [] => (stdout, None)
  | line :: lines' =>
      match parse line with
      | inl e => (stdout, Some e)
      | inr (a, b, c) => loop lines' (stdout +:+ classify a b c +:+ nl)
      end
  end.

(** The script: what it writes to its standard output, and the error that
    ended it, if any.  [readline()] takes the first line off, and nothing
    is done with it. *)
Definition script (w : world) : string * option error :=
  match open_read "Prob03.in.txt" w with
  | (Raise e, _) => ("", Some (OpenError e))
  | (Ok text, _) => loop (tail (readlines text)) ""
  end.

Section Process.

(** The traceback that the interpreter writes to the standard error when
    the script ends by an error. *)
Variable traceback : error → string.

(** The process that runs the script, as [check_solution] sees it. *)
Definition communicate (cmd : string) (w : world) : string * string :=
  ((script w).1,
  match (script w).2 with
  | None => ""
  | Some e => traceback e
  end).

End Process.

End Prob03.

(** ** Notions used in the statements about Prob03.py *)





(** White space from the first to the last character. *)
Definition blank (s : string) : Prop := Py.all_with Py.isspace s = true.

(** A character of a decimal numeral: a digit or the minus sign. *)
Definition numeral_char (c : ascii) : bool :=
  Py.code_in [45; 48; 49; 50; 51; 52; 53; 54; 55; 56; 57] c.

(** A character that ends no line: neither LF nor CR. *)
Definition inline_char (c : ascii) : bool :=
  negb (Py.code_in [10; 13] c).






(** ** Notions used in the statements about the discovery *)

(** The strings that a pattern matches from their first to their last
    character. *)
Fixpoint lang (r : Re.regex) (s : string) : Prop :=
  match r with
  | Re.Empty => False
  | Re.Eps => s = ""
  | Re.Chr c => s = String c ""
  | Re.Range lo hi => ∃ c, s = String c "" ∧ Re.in_range lo hi c = true
  | Re.Cat r1 r2 => ∃ s1 s2, s = s1 +:+ s2 ∧ lang r1 s1 ∧ lang r2 s2
  | Re.Alt r1 r2 => lang r1 s ∨ lang r2 s
  end.

(** The name of a problem file: [Prob], two digits, and one of the three
    extensions. *)
Definition cq_name (f : string) : Prop :=
  ∃ d1 d2 ext,
    f = "Prob" +:+ String d1 (String d2 ext) ∧
    Re.in_range "0" "9" d1 = true ∧ Re.in_range "0" "9" d2 = true ∧
    ext ∈ [".in.txt"; ".out.txt"; ".py"].

(** ** More example worlds *)


(** An order of iteration of a set, and the opposite one. *)
Definition ascending (s : gset string) : list string := Py.sorted (elements s).

Definition descending (s : gset string) : list string := reverse (Py.sorted (elements s)).

(** ** Notions used in the proofs about the delta *)









Section Blocks.
Context {A : Type} `{EqDecision A}.
Variables a b : list A.


End Blocks.







(** ** Notions used in the statement about [main] *)

(** The different names of a listing that the pattern matches and whose
    problem number is [n]. *)
Definition problem_files (names : list string) (n : nat) : list string :=
  filter (λ f, Re.match_ REGEX_PATTERN f = true ∧ prob_num f = Some (Z.of_nat n))
         (remove_dups names).
(** ** Properties of the library models *)

Section CompareRefl.
Context {A : Type} `{EqDecision A}.
Implicit Types (a b : list A) (x : A).




















End CompareRefl.


(** *** The fuel of the loops is enough *)

Section Fuel.
Context {A : Type} `{EqDecision A}.
Implicit Types (a b : list A).









End Fuel.

Lemma fold_left_inv {S X : Type} (P : S → Prop) (f : S → X → S) (l : list X) (st : S) :
  P st → (∀ st x, x ∈ l → P st → P (f st x)) → P (fold_left f l st).
Proof.
  revert st. induction l as [|x l IH]; intros st Hst Hstep; simpl; [done|].
  apply IH.
  - apply Hstep; [by left|done].
  - intros st' x' Hx'. apply Hstep. by right.
Qed.

Lemma search_step_inv a b alo ahi j bj st i :
  alo ≤ i < ahi → b !! j = Some bj →
  search_inv a b alo ahi st → search_inv a b alo ahi (Difflib.search_step a j bj st i).
Proof.
  intros Hi Hj Hst. unfold Difflib.search_step.
  destruct (a !! i) as [ai|] eqn:Hai; [|done].
  destruct st as [[r best] eq]. destruct Hst as (Hnone & Hbest & Heq). simpl in *.
  assert (Hnew : search_inv a b alo ahi
            (Difflib.ratio (Difflib.chars ai) (Difflib.chars bj), Some (i, j), eq)).
  { split; [done|]. split; [|done]. simpl. intros ? ? [= <- <-].
    rewrite Hai, Hj. eauto. }
  case_bool_decide.
  - split; [done|]. split; [done|]. simpl. destruct eq as [[eqi eqj]|]; [done|].
    intros ? ? [= <- <-]. rewrite Hai. eauto.
  - repeat case_match; done.
Qed.

Lemma search_inv_result a b alo ahi blo bhi :
  search_inv a b alo ahi (Difflib.search a b alo ahi blo bhi).
Proof.
  unfold Difflib.search. apply fold_left_inv.
  - split; [done|]. split; by simpl.
  - intros st j _ Hst. destruct (b !! j) as [bj|] eqn:Hj; [|done].
    apply fold_left_inv; [done|].
    intros st' i Hi%list_elem_of_In%in_seq. apply search_step_inv; [lia|done].
Qed.

(** [_fancy_replace] always ends within its bound, with a result. *)
Lemma fancy_replace_total (a b : list string) fuel alo ahi blo bhi :
  alo < ahi → ahi - alo ≤ fuel →
  is_Some (Difflib.fancy_replace fuel a b alo ahi blo bhi).
Proof.
  revert alo ahi blo bhi. induction fuel as [|fuel IH]; intros alo ahi blo bhi Hlt Hfuel;
    [lia|].
  assert (Hhelper : ∀ alo' ahi' blo' bhi', ahi' - alo' ≤ fuel →
    is_Some (if alo' <? ahi'
             then if blo' <? bhi' then Difflib.fancy_replace fuel a b alo' ahi' blo' bhi'
                  else Some (Difflib.dump "-" a alo' ahi')
             else if blo' <? bhi' then Some (Difflib.dump "+" b blo' bhi')
                  else Some [])).
  { intros alo' ahi' blo' bhi' Hf. destruct (alo' <? ahi') eqn:Hc.
    - destruct (blo' <? bhi'); [|by eexists]. apply IH; [|done]. by apply Nat.ltb_lt.
    - destruct (blo' <? bhi'); by eexists. }
  cbn [Difflib.fancy_replace]. cbv zeta.
  pose proof (search_inv_result a b alo ahi blo bhi) as Hinv.
  destruct (Difflib.search a b alo ahi blo bhi) as [[r best] eq].
  destruct Hinv as (Hnone & Hbest & Heq). simpl in Hnone, Hbest, Heq.
  destruct (Difflib.Qltb r (75 # 100)) eqn:Hr.
  - destruct eq as [[eqi eqj]|]; [|by eexists].
    destruct (Heq eqi eqj eq_refl) as (Hi & [aelt Ha]).
    destruct (Hhelper alo eqi blo eqj) as [pre Hpre]; [lia|].
    destruct (Hhelper (eqi + 1) ahi (eqj + 1) bhi) as [post Hpost]; [lia|].
    rewrite Hpre, Ha. simpl. rewrite Hpost. simpl. by eexists.
  - destruct best as [[best_i best_j]|].
    2: { rewrite Hnone in Hr by done. done. }
    destruct (Hbest best_i best_j eq_refl) as (Hi & [aelt Ha] & [belt Hb]).
    destruct (Hhelper alo best_i blo best_j) as [pre Hpre]; [lia|].
    destruct (Hhelper (best_i + 1) ahi (best_j + 1) bhi) as [post Hpost]; [lia|].
    simpl. rewrite Hpre, Ha, Hb. simpl. rewrite Hpost. simpl.
    destruct (fold_left _ _ _). by eexists.
Qed.

Lemma opcodes_from_replace i j blocks alo ahi blo bhi :
  (Difflib.Replace, alo, ahi, blo, bhi) ∈ Difflib.opcodes_from i j blocks → alo < ahi.
Proof.
  revert i j. induction blocks as [|[[ai bj] size] blocks IH]; intros i j; simpl.
  - by intros ?%elem_of_nil.
  - rewrite !elem_of_app. intros [Hin|[Hin|Hin]]; [| |by eapply IH].
    + destruct (i <? ai) eqn:Hi; simpl in Hin.
      * apply Nat.ltb_lt in Hi. destruct (j <? bj).
        -- apply list_elem_of_singleton in Hin. by injection Hin as -> -> -> ->.
        -- by apply list_elem_of_singleton in Hin.
      * destruct (j <? bj); [by apply list_elem_of_singleton in Hin|].
        by apply elem_of_nil in Hin.
    + destruct (size =? 0); [by apply elem_of_nil in Hin|].
      by apply list_elem_of_singleton in Hin.
Qed.

(** Every block that [compare] hands to [_fancy_replace] gets its lines: the
    fall-back of [compare_opcode] is never used. *)
Lemma compare_replace_total (a b : list string) alo ahi blo bhi :
  (Difflib.Replace, alo, ahi, blo, bhi) ∈ Difflib.get_opcodes a b →
  is_Some (Difflib.fancy_replace (ahi - alo) a b alo ahi blo bhi).
Proof.
  intros Hin%opcodes_from_replace. by apply fancy_replace_total.
Qed.

(** ** Properties of the harness *)

(** *** Sorting *)

Lemma insert_sorted_perm x l : Py.insert_sorted x l ≡ₚ x :: l.
Proof.
  induction l as [|y l IH]; simpl; [done|].
  destruct (String.leb x y); [done|]. rewrite IH. apply Permutation_swap.
Qed.

Lemma sorted_perm l : Py.sorted l ≡ₚ l.
Proof.
  induction l as [|x l IH]; simpl; [done|]. by rewrite insert_sorted_perm, IH.
Qed.

Lemma insert_sorted_Sorted x l :
  Sorted String.le l → Sorted String.le (Py.insert_sorted x l).
Proof.
  induction 1 as [|y l Hl IH Hy]; simpl; [by repeat constructor|].
  destruct (String.leb x y) eqn:Hxy.
  - constructor; [by constructor|]. constructor. unfold String.le. by rewrite Hxy.
  - constructor; [done|].
    assert (Hyx : String.le y x).
    { destruct (total String.le x y) as [Hc|Hc]; [|done].
      unfold String.le in Hc. by rewrite Hxy in Hc. }
    destruct Hy as [|z l Hz]; simpl; [by constructor|].
    destruct (String.leb x z); by constructor.
Qed.

Lemma sorted_Sorted l : Sorted String.le (Py.sorted l).
Proof.
  induction l as [|x l IH]; simpl; [constructor|]. by apply insert_sorted_Sorted.
Qed.

(** [sorted] only depends on what is in the list, not on its order. *)
Lemma sorted_proper l1 l2 : l1 ≡ₚ l2 → Py.sorted l1 = Py.sorted l2.
Proof.
  intros Hperm. apply (Sorted_unique String.le); [apply sorted_Sorted..|].
  by rewrite !sorted_perm.
Qed.

(** *** The names of the problem files *)

Lemma triple_ok_100 n : n < 100 → triple_ok n = true.
Proof.
  intros Hn. assert (Hall : forallb triple_ok (seq 0 100) = true).
  { vm_compute. reflexivity. }
  rewrite forallb_forall in Hall. apply Hall, in_seq. lia.
Qed.

Lemma triple_ok_spec n :
  n < 100 →
  (∀ f, f ∈ triple n →
     Re.match_ REGEX_PATTERN f = true ∧ Re.fullmatch REGEX_PATTERN f = true ∧
     prob_num f = Some (Z.of_nat n) ∧ Py.basename f = f) ∧
  Py.sorted (triple n) = triple n ∧
  NoDup (triple n) ∧
  Py.format_02d (Z.of_nat n)
    = String (Py.digit_char (n / 10)) (String (Py.digit_char (n mod 10)) "") ∧
  Py.int (Py.format_02d (Z.of_nat n)) = Some (Z.of_nat n).
Proof.
  intros Hn%triple_ok_100. unfold triple_ok in Hn.
  rewrite !andb_true_iff, forallb_forall, !bool_decide_eq_true in Hn.
  destruct Hn as ((((Hall & Hs) & Hnd) & Hlen) & Hint).
  split; [|done]. intros f Hf. apply list_elem_of_In, Hall in Hf.
  rewrite !andb_true_iff, !bool_decide_eq_true in Hf.
  by destruct Hf as (((? & ?) & ?) & ?).
Qed.

Lemma triple_facts n f :
  n < 100 → f ∈ triple n →
  Re.match_ REGEX_PATTERN f = true ∧ Re.fullmatch REGEX_PATTERN f = true ∧
  prob_num f = Some (Z.of_nat n) ∧ Py.basename f = f.
Proof. intros Hn%triple_ok_spec Hf. by apply Hn. Qed.


Lemma triple_NoDup n : n < 100 → NoDup (triple n).
Proof. intros Hn%triple_ok_spec. apply Hn. Qed.


Lemma elem_of_triples nums f :
  f ∈ concat (triple <$> nums) ↔ ∃ n, n ∈ nums ∧ f ∈ triple n.
Proof.
  induction nums as [|m nums IH].
  - split; [by intros ?%elem_of_nil | by intros (n & ?%elem_of_nil & _)].
  - rewrite fmap_cons. cbn [concat]. rewrite elem_of_app, IH. split.
    + intros [Hf|(n & Hn & Hf)]; [exists m | exists n]; split; try done;
        [by left | by right].
    + intros (n & [->|Hn]%elem_of_cons & Hf); [by left | right; eauto].
Qed.

Lemma filter_triple n k :
  n < 100 →
  filter (λ f, prob_num f = Some k) (triple n) =
  if decide (k = Z.of_nat n) then triple n else [].
Proof.
  intros Hn. pose proof (triple_facts n) as Hf.
  assert (Hall : Forall (λ f, prob_num f = Some (Z.of_nat n)) (triple n)).
  { apply Forall_forall. intros f Hin. by apply Hf. }
  clear Hf. destruct (decide (k = Z.of_nat n)) as [->|Hne].
  - induction Hall as [|f l Hf _ IH]; [done|].
    rewrite filter_cons_True by done. by rewrite IH.
  - induction Hall as [|f l Hf _ IH]; [done|].
    rewrite filter_cons_False by congruence. done.
Qed.

Lemma filter_triples nums k :
  NoDup nums → Forall (λ n, n < 100) nums →
  filter (λ f, prob_num f = Some k) (concat (triple <$> nums)) =
  if decide (k ∈ Z.of_nat <$> nums) then triple (Z.to_nat k) else [].
Proof.
  intros Hnd Hall. induction Hnd as [|m nums Hm Hnd IH].
  - destruct (decide (k ∈ Z.of_nat <$> [])) as [Hin|]; [|done].
    by apply elem_of_nil in Hin.
  - apply Forall_cons in Hall as [Hm100 Hall]. specialize (IH Hall).
    rewrite !fmap_cons. cbn [concat]. rewrite filter_app, IH, filter_triple by done.
    destruct (decide (k = Z.of_nat m)) as [->|Hne].
    + rewrite Nat2Z.id. rewrite (decide_True (P := _ ∈ _ :: _)) by by left.
      rewrite decide_False; [by rewrite app_nil_r|].
      intros (n & Heq & Hn)%list_elem_of_fmap. apply Nat2Z.inj in Heq. by subst.
    + simpl. destruct (decide (k ∈ Z.of_nat <$> nums)) as [Hin|Hin].
      * rewrite decide_True; [done|]. by right.
      * rewrite decide_False; [done|]. by intros [?|?]%elem_of_cons.
Qed.

Lemma triples_NoDup nums :
  NoDup nums → Forall (λ n, n < 100) nums → NoDup (concat (triple <$> nums)).
Proof.
  intros Hnd Hall. induction Hnd as [|m nums Hm Hnd IH]; [constructor|].
  apply Forall_cons in Hall as [Hm100 Hall]. rewrite fmap_cons. cbn [concat].
  apply NoDup_app. split; [by apply triple_NoDup|]. split; [|by apply IH].
  intros f Hf (n & Hn & Hfn)%elem_of_triples.
  rewrite Forall_forall in Hall.
  destruct (triple_facts m f Hm100 Hf) as (_ & _ & Hk1 & _).
  destruct (triple_facts n f (Hall n Hn) Hfn) as (_ & _ & Hk2 & _).
  assert (m = n) by (apply Nat2Z.inj; congruence). by subst.
Qed.

Lemma after_last_slash_no_slash n f : no_slash f → Py.after_last_slash n f = 0.
Proof.
  unfold no_slash. revert n. induction f as [|c f IH]; intros n Hf; simpl in *; [done|].
  apply not_elem_of_cons in Hf as [Hc Hf].
  rewrite bool_decide_eq_false_2 by congruence. by apply IH.
Qed.

Lemma dirname_no_slash f : no_slash f → Py.dirname f = "".
Proof.
  intros Hf. unfold Py.dirname. rewrite after_last_slash_no_slash by done.
  by destruct f.
Qed.

(** *** Discovery and grouping *)

Lemma filter_all {A} (P : A → Prop) `{∀ x, Decision (P x)} (l : list A) :
  Forall P l → filter P l = l.
Proof.
  induction 1 as [|x l Hx _ IH]; [done|]. by rewrite filter_cons_True, IH.
Qed.

Lemma get_cq_files_spec target_dir w names :
  dirs w !! target_dir = Some names →
  get_cq_files target_dir w =
    (Ok (list_to_set (filter (λ f, Re.match_ REGEX_PATTERN f = true) names)), w).
Proof.
  intros Hnames. unfold get_cq_files. rewrite Hnames. do 2 f_equal. clear Hnames.
  assert (Hgen : ∀ (acc : gset string),
            foldl (λ (matched : gset string) f,
                     if Re.match_ REGEX_PATTERN f then matched ∪ {[f]} else matched)
                  acc names
            = acc ∪ list_to_set (filter (λ f, Re.match_ REGEX_PATTERN f = true) names)).
  { induction names as [|f names IH]; intros acc; simpl.
    - by rewrite (right_id_L ∅ (∪)).
    - rewrite IH. destruct (Re.match_ REGEX_PATTERN f) eqn:Hf.
      + rewrite filter_cons_True by done. simpl. by rewrite (assoc_L (∪)).
      + rewrite filter_cons_False by (by rewrite Hf). done. }
  rewrite Hgen. by rewrite (left_id_L ∅ (∪)).
Qed.

Lemma fullmatch_match r s : Re.fullmatch r s = true → Re.match_ r s = true.
Proof.
  revert r. induction s as [|c s IH]; intros r; simpl.
  - intros ->. done.
  - intros Hfull%IH. rewrite Hfull. by destruct (Re.nullable r).
Qed.

(** What [get_cq_files] returns of a directory: every name of the pattern,
    and with them every name that only starts like one. *)
Lemma get_cq_files_matched target_dir w names :
  dirs w !! target_dir = Some names →
  ∃ matched,
    get_cq_files target_dir w = (Ok matched, w) ∧
    (∀ f, f ∈ matched ↔ f ∈ names ∧ Re.match_ REGEX_PATTERN f = true) ∧
    (∀ f, f ∈ names → Re.fullmatch REGEX_PATTERN f = true → f ∈ matched).
Proof.
  intros Hnames. eexists. split; [by apply get_cq_files_spec|].
  assert (Hiff : ∀ f,
    f ∈ (list_to_set (filter (λ f, Re.match_ REGEX_PATTERN f = true) names)
           : gset string)
    ↔ f ∈ names ∧ Re.match_ REGEX_PATTERN f = true).
  { intros f. rewrite elem_of_list_to_set, list_elem_of_filter. tauto. }
  split; [done|]. intros f Hf Hfull. apply Hiff. split; [done|].
  by apply fullmatch_match.
Qed.

Lemma group_loop_spec (l : list string) :
  Forall (λ f, is_Some (prob_num f)) l →
  ∀ g0, ∃ g, group_loop g0 l = Ok g ∧
    ∀ k, g !! k =
      match g0 !! k with
      | Some fs0 => Some (fs0 ++ filter (λ f, prob_num f = Some k) l)
      | None =>
          match filter (λ f, prob_num f = Some k) l with
          | [] => None
          | fs => Some fs
          end
      end.
Proof.
  induction 1 as [|f l [n Hn] _ IH]; intros g0.
  - exists g0. split; [done|]. intros k. simpl.
    destruct (g0 !! k); [by rewrite app_nil_r|done].
  - simpl. unfold group_step. fold (prob_num f). rewrite Hn.
    match goal with |- context [group_loop ?g1 l] => destruct (IH g1) as (g & Hg & Hlook) end.
    exists g. split; [done|]. intros k. rewrite Hlook.
    destruct (decide (k = n)) as [->|Hne].
    + rewrite filter_cons_True by done.
      destruct (g0 !! n) as [fs0|] eqn:H0; rewrite lookup_insert_eq.
      * by rewrite <- app_assoc.
      * done.
    + rewrite filter_cons_False by congruence.
      destruct (g0 !! n); by rewrite lookup_insert_ne.
Qed.

Lemma group_loop_elem l g0 g k fs f :
  group_loop g0 l = Ok g → g !! k = Some fs → f ∈ fs →
  f ∈ l ∨ ∃ fs0, g0 !! k = Some fs0 ∧ f ∈ fs0.
Proof.
  revert g0. induction l as [|x l IH]; intros g0 Hloop Hk Hf; simpl in Hloop.
  - injection Hloop as <-. right. eauto.
  - unfold group_step in Hloop. destruct (Py.int (get_prob_num x)) as [n|]; [|done].
    destruct (IH _ Hloop Hk Hf) as [Hin|(fs0 & Hfs0 & Hin)]; [left; by right|].
    destruct (decide (k = n)) as [->|Hne].
    + destruct (g0 !! n) as [l0|] eqn:H0; rewrite lookup_insert_eq in Hfs0;
        injection Hfs0 as <-.
      * apply elem_of_app in Hin as [Hin|Hin%list_elem_of_singleton].
        -- right. eauto.
        -- left. subst. by left.
      * apply list_elem_of_singleton in Hin. left. subst. by left.
    + right. exists fs0. split; [|done].
      destruct (g0 !! n); by rewrite lookup_insert_ne in Hfs0.
Qed.

(** *** The test methods *)


(** A method of the class after [create_test_funcs] was there before or
    comes from a group of three. *)
Lemma create_test_funcs_inv grouped cls name cq_files :
  create_test_funcs grouped cls !! name = Some cq_files →
  cls !! name = Some cq_files ∨
  ∃ k fs, grouped !! k = Some fs ∧ length fs = 3 ∧
          name = test_name k ∧ cq_files = Py.sorted fs.
Proof.
  unfold create_test_funcs. revert name cq_files.
  apply (map_fold_weak_ind (λ r m, ∀ name cq_files, r !! name = Some cq_files →
           cls !! name = Some cq_files ∨
           ∃ k fs, m !! k = Some fs ∧ length fs = 3 ∧
                   name = test_name k ∧ cq_files = Py.sorted fs)).
  - intros name cq_files ?. by left.
  - intros k fs m r Hk IH name cq_files Hlook.
    assert (Hold : r !! name = Some cq_files →
              cls !! name = Some cq_files ∨
              ∃ k' fs', <[k:=fs]> m !! k' = Some fs' ∧ length fs' = 3 ∧
                        name = test_name k' ∧ cq_files = Py.sorted fs').
    { intros [?|(k' & fs' & Hk' & ?)]%IH; [by left|right].
      exists k', fs'. split; [|done]. rewrite lookup_insert_ne; [done|congruence]. }
    destruct (length fs =? 3) eqn:Hlen; [|by apply Hold].
    apply Nat.eqb_eq in Hlen.
    destruct (decide (name = test_name k)) as [->|Hne].
    + rewrite lookup_insert_eq in Hlook. injection Hlook as <-. right.
      exists k, fs. by rewrite lookup_insert_eq.
    + rewrite lookup_insert_ne in Hlook by done. by apply Hold.
Qed.



(** *** The verifier *)

Lemma open_read_readable path w :
  readable path w →
  ∃ raw, files w !! path = Some raw ∧
         open_read path w = (Ok (Py.universal_newlines raw), w).
Proof.
  intros [Hdir [raw Hraw]]. exists raw. split; [done|].
  unfold open_read. rewrite bool_decide_eq_false_2 by done. by rewrite Hraw.
Qed.

Lemma read_lines_readable path w :
  readable path w →
  ∃ raw, files w !! path = Some raw ∧
         read_lines path w = (Ok (normalize (Py.universal_newlines raw)), w).
Proof.
  intros (raw & Hraw & Hread)%open_read_readable. exists raw. split; [done|].
  unfold read_lines, mbind, M_bind, bind. by rewrite Hread.
Qed.

(** Reading leaves the world as it is. *)
Lemma read_lines_world path w :
  (∃ lines, read_lines path w = (Ok lines, w)) ∨
  (∃ e, read_lines path w = (Raise e, w)).
Proof.
  unfold read_lines, mbind, M_bind, bind, open_read.
  destruct (bool_decide (path ∈ dom (dirs w))); [by eauto|].
  destruct (files w !! path); by eauto.
Qed.




(** The comparison only writes the error file. *)
Lemma compare_loop_world in_file solution_file out line_no diffs w :
  let r := compare_loop in_file solution_file out line_no diffs w in
  dirs r.2 = dirs w ∧ tmp_seq r.2 = tmp_seq w ∧ spawned r.2 = spawned w.
Proof.
  revert line_no. induction diffs as [|diff diffs IH]; intros line_no; simpl; [done|].
  destruct (Py.startswith diff " "); [apply IH|].
  unfold mbind, M_bind, bind, open_write.
  destruct (bool_decide _); [done|]. destruct (creatable _ w); [|done].
  by destruct diffs as [|? [|? ?]].
Qed.

Lemma copyfile_to_directory src dst w :
  dst ∈ dom (dirs w) → ∃ e, copyfile src dst w = (Raise e, w).
Proof.
  intros Hdst. unfold copyfile.
  destruct (bool_decide (src ∈ dom (dirs w))); [by eauto|].
  destruct (files w !! src) as [raw|]; [|by eauto].
  unfold open_write. rewrite bool_decide_eq_true_2 by done. by eauto.
Qed.

Lemma mkdtemp_directory w :
  ∃ d w1, mkdtemp w = (Ok d, w1) ∧ d ∈ dom (dirs w1) ∧ spawned w1 = spawned w.
Proof.
  eexists _, _. split; [reflexivity|]. split; [|done].
  cbn [dirs]. rewrite dom_insert_L. set_solver.
Qed.

(** Staging always fails: the copy is given a directory as its name. *)
Lemma stage_raises in_file out_file solution_file w :
  ∃ e w', stage in_file out_file solution_file w = (Raise e, w') ∧
          spawned w' = spawned w.
Proof.
  unfold stage, mbind, M_bind, bind, with_TemporaryDirectory.
  destruct (mkdtemp_directory w) as (d0 & w0 & -> & _ & Hs0).
  destruct (mkdtemp_directory w0) as (d & w1 & -> & Hd & Hs1).
  destruct (copyfile_to_directory in_file d w1 Hd) as [e ->].
  eexists _, _. split; [reflexivity|]. cbn [rmtree spawned]. congruence.
Qed.

(** A process is only started when both files were read and the input and
    the solution are in one directory. *)
Lemma check_solution_started exe comm in_file out_file solution_file w :
  spawned (check_solution exe comm in_file out_file solution_file w).2 ≠ spawned w →
  readable in_file w ∧ readable out_file w ∧
  Py.dirname in_file = Py.dirname solution_file.
Proof.
  unfold check_solution, mbind, M_bind, bind, read_lines at 1. unfold mbind, M_bind, bind.
  unfold open_read at 1.
  destruct (bool_decide (in_file ∈ dom (dirs w))) eqn:Hd1; [done|].
  destruct (files w !! in_file) as [raw1|] eqn:Hf1; [|done]. unfold ret at 1.
  unfold read_lines at 1. unfold mbind, M_bind, bind. unfold open_read at 1.
  destruct (bool_decide (out_file ∈ dom (dirs w))) eqn:Hd2; [done|].
  destruct (files w !! out_file) as [raw2|] eqn:Hf2; [|done]. unfold ret at 1.
  apply bool_decide_eq_false in Hd1, Hd2.
  case_bool_decide as Hdir.
  - destruct (stage_raises in_file out_file solution_file w) as (e & w' & -> & Hs).
    simpl. by rewrite Hs.
  - intros _. repeat split; try done; by eexists.
Qed.


(** With the input and the solution in one directory, [check_solution]
    makes no directory and starts at most the one process. *)
Lemma check_solution_world exe comm in_file out_file solution_file w r :
  Py.dirname in_file = Py.dirname solution_file →
  check_solution exe comm in_file out_file solution_file w = r →
  dirs r.2 = dirs w ∧ tmp_seq r.2 = tmp_seq w ∧
  (spawned r.2 = spawned w ∨
   spawned r.2 = command_line exe solution_file :: spawned w).
Proof.
  intros Hdir Hr. unfold check_solution, mbind, M_bind, bind in Hr.
  destruct (read_lines_world in_file w) as [[? Hin]|[? Hin]]; rewrite Hin in Hr;
    [|subst r; by auto].
  destruct (read_lines_world out_file w) as [[expected Hout]|[? Hout]];
    rewrite Hout in Hr; [|subst r; by auto].
  rewrite bool_decide_eq_false_2 in Hr by (by intros []).
  unfold ret at 1, popen in Hr. cbv beta iota zeta in Hr.
  destruct (comm (command_line exe solution_file) w) as [out err].
  destruct (negb (String.length err =? 0)); [subst r; by auto|].
  destruct (compare_loop_world in_file solution_file (normalize out) 1
              (Difflib.compare (normalize out) expected)
              (ran (command_line exe solution_file) w)) as (Hd & Ht & Hs).
  rewrite Hr in Hd, Ht, Hs. rewrite Hd, Ht, Hs. by auto.
Qed.

(** ** The claims *)

(** C1: the solution prints [A], [B]; [A], [C] is expected.  The delta is
    [  A], [- B], [+ C]: the second line differs, the error file is
    written with the two lines of the output, and then the second
    [next(diffs)] finds the generator exhausted: [StopIteration] leaves
    [check_solution], not the [AssertionError] with the two lines. *)
Theorem check_solution_AB_AC :
  normalize (prints_AB (command_line "python3" "Prob01.py") world_AC).1
    = ["A" +:+ nl; "B" +:+ nl] ∧
  Difflib.compare ["A" +:+ nl; "B" +:+ nl] ["A" +:+ nl; "C" +:+ nl]
    = ["  A" +:+ nl; "- B" +:+ nl; "+ C" +:+ nl] ∧
  check_solution "python3" prints_AB "Prob01.in.txt" "Prob01.out.txt" "Prob01.py"
      world_AC
    = (Raise StopIteration,
       put_file "Prob01.error.txt" ("A" +:+ nl +:+ "B" +:+ nl)
         (ran (command_line "python3" "Prob01.py") world_AC)).
Proof. repeat split; vm_compute; reflexivity. Qed.





(** C4: an output without any line (a pure insertion in the delta) and an
    output with one more, blank, line (a pure deletion) both end in
    [StopIteration]. *)
Theorem check_solution_insertion_deletion :
  Difflib.compare [] ["A" +:+ nl; "C" +:+ nl] = ["+ A" +:+ nl; "+ C" +:+ nl] ∧
  check_solution "python3" prints_nothing "Prob01.in.txt" "Prob01.out.txt"
      "Prob01.py" world_AC
    = (Raise StopIteration,
       put_file "Prob01.error.txt" ""
         (ran (command_line "python3" "Prob01.py") world_AC)) ∧
  Difflib.compare ["A" +:+ nl; "C" +:+ nl; nl] ["A" +:+ nl; "C" +:+ nl]
    = ["  A" +:+ nl; "  C" +:+ nl; "- " +:+ nl] ∧
  check_solution "python3" prints_AC_blank "Prob01.in.txt" "Prob01.out.txt"
      "Prob01.py" world_AC
    = (Raise StopIteration,
       put_file "Prob01.error.txt" ("A" +:+ nl +:+ "C" +:+ nl +:+ nl)
         (ran (command_line "python3" "Prob01.py") world_AC)).
Proof. repeat split; vm_compute; reflexivity. Qed.

(** C5: with the input in directory [a] and the solution in directory [b],
    [shutil.copyfile] is given the temporary directory as the name of the
    copy and raises; no process is started.  The directory of the [with]
    block is gone, the one made first is still there. *)
Theorem check_solution_two_dirs :
  ∃ w',
    check_solution "python3" prints_AB "a/Prob01.in.txt" "a/Prob01.out.txt"
        "b/Prob01.py" world_two_dirs
      = (Raise (IsADirectoryError "/tmp/tmp1"), w') ∧
    spawned w' = [] ∧ files w' = files world_two_dirs ∧
    dirs w' = <["/tmp/tmp0" := []]> (dirs world_two_dirs).
Proof. eexists. repeat split; vm_compute; reflexivity. Qed.

(** C6: [Prob03.py.bak] is not a name of the pattern, and [get_cq_files]
    returns it: [match] only anchors the pattern at the start of the name.
    Problem 3 then has four files and gets no test. *)
Theorem get_cq_files_keeps_backup :
  Re.fullmatch REGEX_PATTERN "Prob03.py.bak" = false ∧
  get_cq_files "." world_backup
    = (Ok (list_to_set ["Prob03.in.txt"; "Prob03.out.txt"; "Prob03.py";
                        "Prob03.py.bak"]), world_backup) ∧
  main elements "." world_backup = (Ok ∅, world_backup).
Proof. repeat split; vm_compute; reflexivity. Qed.



(** C8: a directory that holds the three files of each problem of [nums]
    and nothing else.  Whatever the order in which the set of names is
    iterated, grouping gives one group for each of these problem numbers
    and no other, the group of a number holds its three files, and at no
    point of the iteration does a group hold more than three. *)
Theorem discovery_grouping_triples (w : world) (target_dir : string)
    (nums : list nat) (names : list string) :
  NoDup nums → Forall (λ n, n < 100) nums →
  names ≡ₚ concat (triple <$> nums) →
  dirs w !! target_dir = Some names →
  ∃ matched,
    get_cq_files target_dir w = (Ok matched, w) ∧
    ∀ order, order ≡ₚ elements matched →
      ∃ grouped,
        group_cq_files order = Ok grouped ∧
        (∀ k, k ∈ dom grouped ↔ k ∈ Z.of_nat <$> nums) ∧
        (∀ n, n ∈ nums →
           ∃ l, grouped !! Z.of_nat n = Some l ∧ l ≡ₚ triple n) ∧
        (∀ order' g', order' `prefix_of` order →
           group_cq_files order' = Ok g' →
           ∀ k l, g' !! k = Some l → length l ≤ 3).
Proof.
  intros Hnd Hall Hnames Hdir.
  assert (Hfacts : ∀ f, f ∈ names →
            Re.match_ REGEX_PATTERN f = true ∧ is_Some (prob_num f)).
  { intros f Hf. rewrite Hnames in Hf. apply elem_of_triples in Hf as (n & Hn & Hf).
    rewrite Forall_forall in Hall.
    destruct (triple_facts n f (Hall n Hn) Hf) as (? & _ & ? & _). eauto. }
  eexists. split; [by apply get_cq_files_spec|].
  rewrite filter_all by (apply Forall_forall; intros f Hf; by apply Hfacts).
  intros order Horder.
  assert (Hperm : order ≡ₚ concat (triple <$> nums)).
  { rewrite Horder, elements_list_to_set; [done|].
    rewrite Hnames. by apply triples_NoDup. }
  assert (Hsome : ∀ l, (∀ f, f ∈ l → f ∈ order) → Forall (λ f, is_Some (prob_num f)) l).
  { intros l Hl. apply Forall_forall. intros f Hf%Hl. apply Hfacts.
    by rewrite Hnames, <- Hperm. }
  assert (Hfilter : ∀ k, filter (λ f, prob_num f = Some k) order ≡ₚ
            if decide (k ∈ Z.of_nat <$> nums) then triple (Z.to_nat k) else []).
  { intros k. by rewrite Hperm, filter_triples. }
  destruct (group_loop_spec order (Hsome order (λ _ H, H)) ∅) as (grouped & Hg & Hlook).
  exists grouped. split; [done|].
  assert (Hlook' : ∀ k, grouped !! k =
            if decide (k ∈ Z.of_nat <$> nums)
            then Some (filter (λ f, prob_num f = Some k) order) else None).
  { intros k. rewrite Hlook, lookup_empty. specialize (Hfilter k).
    destruct (decide (k ∈ Z.of_nat <$> nums)).
    - destruct (filter _ order); [|done]. by apply Permutation_nil_l in Hfilter.
    - by apply Permutation_nil_r in Hfilter as ->. }
  split; [|split].
  - intros k. rewrite elem_of_dom, Hlook'. destruct (decide _) as [Hin|Hin].
    + split; [done|]. by eexists.
    + split; [by intros [? ?]|done].
  - intros n Hn. eexists. rewrite Hlook'.
    rewrite decide_True by (apply list_elem_of_fmap; eauto).
    split; [done|]. rewrite Hfilter.
    rewrite decide_True by (apply list_elem_of_fmap; eauto). by rewrite Nat2Z.id.
  - intros order' g' [rest ->] Hg' k l Hl.
    destruct (group_loop_spec order') with (g0 := (∅ : gmap Z (list string)))
      as (g'' & Hg'' & Hlook'').
    { apply Hsome. intros f Hf. apply elem_of_app. by left. }
    unfold group_cq_files in Hg'. rewrite Hg'' in Hg'. injection Hg' as <-.
    rewrite Hlook'', lookup_empty in Hl.
    assert (Hlen : length (filter (λ f, prob_num f = Some k) order') ≤ 3).
    { specialize (Hfilter k). rewrite filter_app in Hfilter.
      apply Permutation_length in Hfilter. rewrite length_app in Hfilter.
      destruct (decide _); simpl in Hfilter; lia. }
    destruct (filter _ order'); [done|]. by injection Hl as <-.
Qed.

Lemma discovery_grouping_triples_witness :
  ∃ matched,
    get_cq_files "." world_AC = (Ok matched, world_AC) ∧
    ∀ order, order ≡ₚ elements matched →
      ∃ grouped,
        group_cq_files order = Ok grouped ∧
        (∀ k, k ∈ dom grouped ↔ k ∈ Z.of_nat <$> [1]) ∧
        (∀ n, n ∈ [1] →
           ∃ l, grouped !! Z.of_nat n = Some l ∧ l ≡ₚ triple n) ∧
        (∀ order' g', order' `prefix_of` order →
           group_cq_files order' = Ok g' →
           ∀ k l, g' !! k = Some l → length l ≤ 3).
Proof.
  apply (discovery_grouping_triples world_AC "." [1]
           ["Prob01.in.txt"; "Prob01.out.txt"; "Prob01.py"]).
  - apply NoDup_singleton.
  - repeat constructor.
  - reflexivity.
  - vm_compute. reflexivity.
Defined.

(** C9: on a path that is not an existing directory [get_cq_files] raises
    [OSError], and so does [main] before any test is made; on a directory
    it returns a set.  Either way the world is as it was. *)
Theorem get_cq_files_target_dir (set_order : gset string → list string)
    (target_dir : string) (w : world) :
  (target_dir ∉ dom (dirs w) →
     get_cq_files target_dir w = (Raise (OSError target_dir), w) ∧
     main set_order target_dir w = (Raise (OSError target_dir), w)) ∧
  (target_dir ∈ dom (dirs w) →
     ∃ matched, get_cq_files target_dir w = (Ok matched, w)).
Proof.
  split.
  - intros Hnd%not_elem_of_dom.
    assert (Hget : get_cq_files target_dir w = (Raise (OSError target_dir), w)).
    { unfold get_cq_files. by rewrite Hnd. }
    split; [done|]. unfold main, mbind, M_bind, bind. by rewrite Hget.
  - intros [names Hnames]%elem_of_dom. unfold get_cq_files. rewrite Hnames. eauto.
Qed.

Lemma get_cq_files_target_dir_witness :
  (("Prob01.py" ∉ dom (dirs world_AC)) ∧
   get_cq_files "Prob01.py" world_AC = (Raise (OSError "Prob01.py"), world_AC) ∧
   main elements "Prob01.py" world_AC = (Raise (OSError "Prob01.py"), world_AC)) ∧
  (("." ∈ dom (dirs world_AC)) ∧
   ∃ matched, get_cq_files "." world_AC = (Ok matched, world_AC)).
Proof.
  destruct (get_cq_files_target_dir elements "Prob01.py" world_AC) as [Hno _].
  destruct (get_cq_files_target_dir elements "." world_AC) as [_ Hyes].
  assert (H1 : "Prob01.py" ∉ dom (dirs world_AC)).
  { apply (bool_decide_unpack _). vm_compute. exact I. }
  assert (H2 : "." ∈ dom (dirs world_AC)).
  { apply (bool_decide_unpack _). vm_compute. exact I. }
  split; [split; [exact H1 | exact (Hno H1)] | split; [exact H2 | exact (Hyes H2)]].
Defined.

(** C10: the test methods that [main] makes from a directory are bound to
    three names of that directory.  A name has no directory part, so the
    test of [check_solution] for staging fails: running the method makes
    no temporary directory, and the process it starts is given the bare
    name of the solution. *)
Theorem main_tests_are_not_staged (sys_executable : string)
    (communicate : string → world → string * string)
    (set_order : gset string → list string) (cwd : string) (w w' : world)
    (tests : gmap string (list string)) :
  (∀ s, set_order s ≡ₚ elements s) →
  (∀ names, dirs w !! cwd = Some names → Forall no_slash names) →
  main set_order cwd w = (Ok tests, w') →
  ∀ name cq_files, tests !! name = Some cq_files →
    ∃ in_file out_file solution_file,
      cq_files = [in_file; out_file; solution_file] ∧
      Py.dirname in_file = "" ∧ Py.dirname solution_file = "" ∧
      bool_decide (Py.dirname in_file ≠ Py.dirname solution_file) = false ∧
      ∀ w0,
        let r := check_solution_method sys_executable communicate cq_files w0 in
        dirs r.2 = dirs w0 ∧ tmp_seq r.2 = tmp_seq w0 ∧
        (spawned r.2 = spawned w0 ∨
         spawned r.2 = command_line sys_executable solution_file :: spawned w0).
Proof.
  intros Horder Hnames Hmain name cq_files Hlook.
  unfold main, mbind, M_bind, bind in Hmain.
  destruct (dirs w !! cwd) as [names|] eqn:Hdir.
  2: { unfold get_cq_files in Hmain. by rewrite Hdir in Hmain. }
  specialize (Hnames names eq_refl). rewrite Forall_forall in Hnames.
  rewrite (get_cq_files_spec _ _ _ Hdir) in Hmain. unfold lift in Hmain.
  destruct (group_cq_files _) as [grouped|] eqn:Hgroup; [|done].
  injection Hmain as <- <-.
  apply create_test_funcs_inv in Hlook as [Hlook|(k & fs & Hk & Hlen & -> & ->)];
    [by rewrite lookup_empty in Hlook|].
  assert (Hbare : ∀ f, f ∈ Py.sorted fs → no_slash f).
  { intros f Hf. rewrite sorted_perm in Hf.
    destruct (group_loop_elem _ _ _ _ _ _ Hgroup Hk Hf) as [Hin|(? & Hin & _)];
      [|by rewrite lookup_empty in Hin].
    rewrite Horder in Hin. apply elem_of_elements, elem_of_list_to_set in Hin.
    apply list_elem_of_filter in Hin as [_ Hin]. by apply Hnames. }
  assert (Hlen' : length (Py.sorted fs) = 3) by by rewrite sorted_perm.
  destruct (Py.sorted fs) as [|i [|o [|s [|? ?]]]]; try done.
  exists i, o, s. split; [done|].
  assert (Hi : Py.dirname i = "") by (apply dirname_no_slash, Hbare; by left).
  assert (Hs : Py.dirname s = "").
  { apply dirname_no_slash, Hbare. do 2 right. by left. }
  split; [done|]. split; [done|]. split.
  { apply bool_decide_eq_false_2. rewrite Hi, Hs. by intros []. }
  intros w0. simpl. eapply check_solution_world; [by rewrite Hi, Hs|done].
Qed.

Lemma main_tests_are_not_staged_witness :
  main elements "." world_AC
    = (Ok {["test_prob01" := ["Prob01.in.txt"; "Prob01.out.txt"; "Prob01.py"]]},
       world_AC) ∧
  ∃ in_file out_file solution_file,
    ["Prob01.in.txt"; "Prob01.out.txt"; "Prob01.py"]
      = [in_file; out_file; solution_file] ∧
    Py.dirname in_file = "" ∧ Py.dirname solution_file = "" ∧
    bool_decide (Py.dirname in_file ≠ Py.dirname solution_file) = false ∧
    ∀ w0,
      let r := check_solution_method "python3" prints_AB
                 ["Prob01.in.txt"; "Prob01.out.txt"; "Prob01.py"] w0 in
      dirs r.2 = dirs w0 ∧ tmp_seq r.2 = tmp_seq w0 ∧
      (spawned r.2 = spawned w0 ∨
       spawned r.2 = command_line "python3" solution_file :: spawned w0).
Proof.
  assert (Hmain : main elements "." world_AC
    = (Ok {["test_prob01" := ["Prob01.in.txt"; "Prob01.out.txt"; "Prob01.py"]]},
       world_AC)).
  { vm_compute. reflexivity. }
  split; [exact Hmain|].
  apply (main_tests_are_not_staged "python3" prints_AB elements "." world_AC world_AC
           {["test_prob01" := ["Prob01.in.txt"; "Prob01.out.txt"; "Prob01.py"]]})
    with (name := "test_prob01").
  - reflexivity.
  - intros names Hnames. vm_compute in Hnames. injection Hnames as <-.
    repeat constructor; apply (bool_decide_unpack _); vm_compute; exact I.
  - exact Hmain.
  - apply lookup_singleton_eq.
Defined.

(** ** Prob03.py *)

Ltac classify_cases :=
  unfold Prob03.classify;
  repeat (match goal with
          | |- context [(?x >? ?y)%Z] => destruct (Z.gtb_spec x y)
          | |- context [(?x =? ?y)%Z] => destruct (Z.eqb_spec x y)
          end; try (exfalso; lia); cbn [andb orb negb]).

(** X1: the classification does not depend on the order in which the
    three sides are given. *)
Theorem classify_symmetric (a b c : Z) :
  Prob03.classify a b c = Prob03.classify b a c ∧
  Prob03.classify a b c = Prob03.classify a c b ∧
  Prob03.classify a b c = Prob03.classify b c a ∧
  Prob03.classify a b c = Prob03.classify c a b ∧
  Prob03.classify a b c = Prob03.classify c b a.
Proof. repeat split; classify_cases; reflexivity. Qed.

(** X2: sides that are not all positive, and sides of which one is as long
    as the other two together, are not a triangle. *)
Theorem classify_not_a_triangle (a b c : Z) :
  (a ≤ 0 ∨ b ≤ 0 ∨ c ≤ 0 ∨ a + b = c ∨ a + c = b ∨ b + c = a)%Z →
  Prob03.classify a b c = "Not a Triangle".
Proof. intros Hgoal. classify_cases; reflexivity || (exfalso; lia). Qed.

Lemma classify_not_a_triangle_witness :
  Prob03.classify 0 0 0 = "Not a Triangle" ∧
  Prob03.classify 1 2 3 = "Not a Triangle" ∧
  Prob03.classify (-3) 4 5 = "Not a Triangle".
Proof.
  split; [|split].
  - apply (classify_not_a_triangle 0 0 0). left. lia.
  - apply (classify_not_a_triangle 1 2 3). do 3 right. left. lia.
  - apply (classify_not_a_triangle (-3) 4 5). left. lia.
Defined.

(** X3: when each side is shorter than the other two together, the
    answer is by the number of equal sides: three, two, or none; otherwise
    it is [Not a Triangle].  The four answers are different strings, so
    exactly one applies. *)
Theorem classify_spec (a b c : Z) :
  (Prob03.classify a b c = "Not a Triangle" ↔
     (a + b ≤ c ∨ a + c ≤ b ∨ b + c ≤ a)%Z) ∧
  (Prob03.classify a b c = "Equilateral" ↔ (0 < a)%Z ∧ a = b ∧ b = c) ∧
  (Prob03.classify a b c = "Isosceles" ↔
     (c < a + b ∧ b < a + c ∧ a < b + c)%Z ∧
     ((a = b ∧ b ≠ c) ∨ (b = c ∧ c ≠ a) ∨ (c = a ∧ a ≠ b))) ∧
  (Prob03.classify a b c = "Scalene" ↔
     (c < a + b ∧ b < a + c ∧ a < b + c)%Z ∧ a ≠ b ∧ b ≠ c ∧ c ≠ a).
Proof.
  split; [|split; [|split]]; split.
  - intros Hgoal. revert Hgoal. classify_cases; intros Hgoal; (discriminate Hgoal || lia).
  - intros Hgoal. classify_cases; reflexivity || (exfalso; lia).
  - intros Hgoal. revert Hgoal. classify_cases; intros Hgoal; (discriminate Hgoal || lia).
  - intros Hgoal. classify_cases; reflexivity || (exfalso; lia).
  - intros Hgoal. revert Hgoal. classify_cases; intros Hgoal; (discriminate Hgoal || lia).
  - intros Hgoal. classify_cases; reflexivity || (exfalso; lia).
  - intros Hgoal. revert Hgoal. classify_cases; intros Hgoal; (discriminate Hgoal || lia).
  - intros Hgoal. classify_cases; reflexivity || (exfalso; lia).
Qed.

(** *** Strings *)

Lemma sapp_cons (c : ascii) (s t : string) : String c s +:+ t = String c (s +:+ t).
Proof. reflexivity. Qed.

Lemma sapp_nil_l (s : string) : "" +:+ s = s.
Proof. reflexivity. Qed.

Lemma sapp_assoc (s1 s2 s3 : string) : (s1 +:+ s2) +:+ s3 = s1 +:+ (s2 +:+ s3).
Proof. induction s1 as [|c s1 IH]; [done|]. by rewrite !sapp_cons, IH. Qed.

Lemma sapp_nil_r (s : string) : s +:+ "" = s.
Proof. induction s as [|c s IH]; [done|]. by rewrite sapp_cons, IH. Qed.

Lemma join_cons (x : string) (l : list string) : Py.join (x :: l) = x +:+ Py.join l.
Proof.
  unfold Py.join. destruct l as [|y l]; cbn; [by rewrite sapp_nil_r|done].
Qed.

Lemma join_app (l1 l2 : list string) : Py.join (l1 ++ l2) = Py.join l1 +:+ Py.join l2.
Proof.
  induction l1 as [|x l1 IH]; [done|].
  rewrite <- app_comm_cons, !join_cons, IH. symmetry. apply sapp_assoc.
Qed.


Lemma all_with_impl (p q : ascii → bool) (s : string) :
  (∀ c, p c = true → q c = true) → Py.all_with p s = true → Py.all_with q s = true.
Proof.
  intros Hpq. induction s as [|c s IH]; [done|]. cbn.
  intros [Hc Hs]%andb_prop. by rewrite (Hpq c Hc), IH.
Qed.

Lemma lstrip_with_all (sp : ascii → bool) (s : string) :
  Py.all_with (λ c, negb (sp c)) s = true → Py.lstrip_with sp s = s.
Proof.
  destruct s as [|c s]; [done|]. cbn. intros [Hc _]%andb_prop.
  by apply negb_true_iff in Hc as ->.
Qed.

Lemma rstrip_with_app (sp : ascii → bool) (s t : string) :
  Py.all_with (λ c, negb (sp c)) s = true → Py.all_with sp t = true →
  Py.rstrip_with sp (s +:+ t) = s.
Proof.
  intros Hs Ht. induction s as [|c s IH].
  - rewrite sapp_nil_l. destruct t as [|c t]; [done|]. cbn. cbn in Ht. by rewrite Ht.
  - cbn in Hs. apply andb_prop in Hs as [Hc Hs]. apply negb_true_iff in Hc.
    rewrite sapp_cons. cbn. rewrite Hc. cbn. by rewrite IH.
Qed.

Lemma rstrip_with_all (sp : ascii → bool) (s : string) :
  Py.all_with (λ c, negb (sp c)) s = true → Py.rstrip_with sp s = s.
Proof.
  intros Hs. rewrite <- (sapp_nil_r s) at 1. by apply rstrip_with_app.
Qed.





Lemma inline_char_not (c : ascii) :
  inline_char c = true → c ≠ Py.LF ∧ c ≠ Py.CR.
Proof. intros Hc. split; intros ->; done. Qed.


Lemma universal_newlines_inline (s t : string) :
  Py.all_with inline_char s = true →
  Py.universal_newlines (s +:+ nl +:+ t) = s +:+ nl +:+ Py.universal_newlines t.
Proof.
  induction s as [|c s IH]; intros Hs; [done|].
  cbn in Hs. apply andb_prop in Hs as [Hc Hs].
  apply inline_char_not in Hc as [_ Hc].
  rewrite !sapp_cons. cbn. rewrite bool_decide_eq_false_2 by done.
  by rewrite IH.
Qed.

(** *** Decimal numerals *)

Lemma digit_val_char (d : nat) :
  d < 10 → Py.digit_val (Py.digit_char d) = Some (Z.of_nat d).
Proof. intros Hd. do 10 (destruct d as [|d]; [done|]). lia. Qed.

Lemma numeral_char_digit (d : nat) : d < 10 → numeral_char (Py.digit_char d) = true.
Proof. intros Hd. do 10 (destruct d as [|d]; [done|]). lia. Qed.

Lemma numeral_char_cases (c : ascii) :
  numeral_char c = true →
  c ∈ ["-"; "0"; "1"; "2"; "3"; "4"; "5"; "6"; "7"; "8"; "9"]%char.
Proof.
  destruct c as [[] [] [] [] [] [] [] []]; vm_compute; intros Hc;
    first [discriminate Hc | set_solver].
Qed.

Lemma numeral_char_facts (c : ascii) :
  numeral_char c = true →
  Py.isspace c = false ∧ inline_char c = true ∧ c ≠ ","%char ∧
  (nat_of_ascii c <? 128) = true ∧ Py.code_in [9; 10; 11; 12; 13; 32] c = false.
Proof.
  intros Hc%numeral_char_cases. repeat apply elem_of_cons in Hc as [->|Hc]; [done..|].
  by apply elem_of_nil in Hc.
Qed.







Lemma numeral_ascii (s : string) :
  Py.all_with numeral_char s = true →
  Py.all_with (λ c, nat_of_ascii c <? 128) s = true.
Proof.
  apply all_with_impl. intros c Hc. apply numeral_char_facts, Hc.
Qed.

Lemma numeral_no_int_space (s : string) :
  Py.all_with numeral_char s = true →
  Py.all_with (λ c, negb (Py.code_in [9; 10; 11; 12; 13; 32] c)) s = true.
Proof.
  apply all_with_impl. intros c Hc. apply negb_true_iff.
  apply numeral_char_facts, Hc.
Qed.



Lemma numeral_inline (s : string) :
  Py.all_with numeral_char s = true → Py.all_with inline_char s = true.
Proof.
  apply all_with_impl. intros c Hc. apply numeral_char_facts, Hc.
Qed.

(** [int] on a string of numeral characters: nothing is stripped. *)
Lemma int_numeral_strip (s : string) :
  Py.all_with numeral_char s = true →
  Py.rstrip_with (Py.int_space s) (Py.lstrip_with (Py.int_space s) s) = s.
Proof.
  intros Hs. unfold Py.int_space. rewrite numeral_ascii by done.
  rewrite lstrip_with_all by by apply numeral_no_int_space.
  by apply rstrip_with_all, numeral_no_int_space.
Qed.


(** *** Lines of the input file *)






Lemma lstrip_with_app_space (sp : ascii → bool) (l t : string) :
  Py.all_with sp l = true → Py.lstrip_with sp (l +:+ t) = Py.lstrip_with sp t.
Proof.
  induction l as [|c l IH]; [done|]. cbn [Py.all_with].
  intros [Hc Hl]%andb_prop. rewrite sapp_cons. cbn [Py.lstrip_with].
  rewrite Hc. by apply IH.
Qed.

Lemma lstrip_with_space (sp : ascii → bool) (l : string) :
  Py.all_with sp l = true → Py.lstrip_with sp l = "".
Proof.
  intros Hl. rewrite <- (sapp_nil_r l). by rewrite lstrip_with_app_space.
Qed.









(** *** The script *)
















(** X8: a line of white space only, such as an empty line, is the invalid
    literal [''] for [int]: the script does not skip blank lines. *)
Theorem parse_blank_line (line : string) :
  blank line → Prob03.parse line = inl (Prob03.InvalidLiteral "").
Proof.
  intros Hblank. unfold Prob03.parse, Prob03.strip.
  by rewrite lstrip_with_space.
Qed.

Lemma parse_blank_line_witness :
  Prob03.parse ("  " +:+ nl) = inl (Prob03.InvalidLiteral "").
Proof. exact (parse_blank_line ("  " +:+ nl) eq_refl). Defined.

(** *** The script under the harness *)






(** ** More on the harness *)

(** *** The pattern *)

Lemma nullable_lang (r : Re.regex) : Re.nullable r = true ↔ lang r "".
Proof.
  induction r as [| | | |r1 IH1 r2 IH2|r1 IH1 r2 IH2]; cbn [Re.nullable lang].
  - done.
  - done.
  - done.
  - split; [done|]. by intros (c & ? & _).
  - rewrite andb_true_iff, IH1, IH2. split.
    + intros [H1 H2]. by exists "", "".
    + intros ([|??] & [|??] & Heq & H1 & H2); done.
  - by rewrite orb_true_iff, IH1, IH2.
Qed.

Lemma deriv_lang (c : ascii) (r : Re.regex) (s : string) :
  lang (Re.deriv c r) s ↔ lang r (String c s).
Proof.
  revert s. induction r as [| |d|lo hi|r1 IH1 r2 IH2|r1 IH1 r2 IH2]; intros s;
    cbn [Re.deriv lang].
  - done.
  - done.
  - case_bool_decide as Hc; cbn [lang].
    + subst. split; [by intros ->|by intros [= ->]].
    + split; [done|]. intros [= ? ?]. done.
  - destruct (Re.in_range lo hi c) eqn:Hc; cbn [lang].
    + split; [intros ->; by exists c|]. by intros (? & [= <- ->] & _).
    + split; [done|]. intros (? & [= <- ->] & ?). congruence.
  - assert (Hcat : (∃ s1 s2, s = s1 +:+ s2 ∧ lang (Re.deriv c r1) s1 ∧ lang r2 s2)
                   ∨ (lang r1 "" ∧ lang r2 (String c s))
                   ↔ ∃ s1 s2, String c s = s1 +:+ s2 ∧ lang r1 s1 ∧ lang r2 s2).
    { split.
      - intros [(s1 & s2 & -> & H1 & H2)|[H1 H2]].
        + exists (String c s1), s2. by rewrite IH1 in H1.
        + by exists "", (String c s).
      - intros ([|d s1] & s2 & Heq & H1 & H2).
        + right. rewrite sapp_nil_l in Heq. by subst.
        + left. rewrite sapp_cons in Heq. injection Heq as <- ->.
          exists s1, s2. by rewrite IH1. }
    rewrite <- Hcat. destruct (Re.nullable r1) eqn:Hn; cbn [lang].
    + apply nullable_lang in Hn. rewrite IH2. tauto.
    + split; [by left|]. intros [?|[Hn' _]]; [done|].
      apply nullable_lang in Hn'. congruence.
  - by rewrite IH1, IH2.
Qed.

(** [fullmatch] decides the language of the pattern. *)
Lemma fullmatch_lang (r : Re.regex) (s : string) :
  Re.fullmatch r s = true ↔ lang r s.
Proof.
  revert r. induction s as [|c s IH]; intros r; cbn [Re.fullmatch].
  - apply nullable_lang.
  - by rewrite IH, deriv_lang.
Qed.

(** [match] looks for a string of the language at the start. *)
Lemma match_lang (r : Re.regex) (s : string) :
  Re.match_ r s = true ↔ ∃ p q, s = p +:+ q ∧ lang r p.
Proof.
  revert r. induction s as [|c s IH]; intros r; cbn [Re.match_];
    rewrite orb_true_iff, nullable_lang.
  - split.
    + intros [H|?]; [|done]. by exists "", "".
    + intros ([|??] & q & Heq & Hp); [by left|done].
  - rewrite IH. split.
    + intros [H|(p & q & -> & Hp)]; [by exists "", (String c s)|].
      exists (String c p), q. by rewrite <- deriv_lang.
    + intros ([|d p] & q & Heq & Hp); [by left|right].
      rewrite sapp_cons in Heq. injection Heq as <- ->.
      exists p, q. by rewrite deriv_lang.
Qed.

Lemma lang_lit (s p : string) : lang (Re.lit s) p ↔ p = s.
Proof.
  revert p. induction s as [|c s IH]; intros p; cbn [Re.lit lang]; [done|].
  split.
  - intros (s1 & s2 & -> & -> & ->%IH). done.
  - intros ->. exists (String c ""), s. by rewrite IH.
Qed.

(** The language of [REGEX_PATTERN]. *)
Lemma lang_REGEX_PATTERN (f : string) : lang REGEX_PATTERN f ↔ cq_name f.
Proof.
  unfold REGEX_PATTERN, cq_name. cbn [lang Re.rep].
  setoid_rewrite lang_lit. split.
  - intros (s1 & s2 & -> & -> & s3 & s4 & -> & Hdigits & s5 & s6 & -> & -> & Hext).
    destruct Hdigits as (? & ? & -> & (d1 & -> & Hd1) & ? & ? & -> & (d2 & -> & Hd2) & ->).
    exists d1, d2. eexists. split; [reflexivity|]. split; [done|]. split; [done|].
    destruct Hext as [(? & ? & -> & [-> | ->] & ? & ? & -> & -> & ->) | ->];
      set_solver.
  - intros (d1 & d2 & ext & -> & Hd1 & Hd2 & Hext).
    exists "Prob", (String d1 (String d2 ext)). split; [done|]. split; [done|].
    exists (String d1 (String d2 "")), ext. split; [done|]. split.
    { exists (String d1 ""), (String d2 ""). split; [done|]. split; [by exists d1|].
      exists (String d2 ""), "". split; [done|]. split; [by exists d2|done]. }
    assert (∃ e, ext = String "." e ∧ e ∈ ["in.txt"; "out.txt"; "py"]) as (e & -> & He).
    { repeat apply elem_of_cons in Hext as [->|Hext];
        [eexists; split; [reflexivity|set_solver]..|].
      by apply elem_of_nil in Hext. }
    exists ".", e. split; [done|]. split; [done|].
    repeat apply elem_of_cons in He as [->|He].
    + left. exists "in", ".txt". split; [done|]. split; [by left|].
      by exists ".", "txt".
    + left. exists "out", ".txt". split; [done|]. split; [by right|].
      by exists ".", "txt".
    + by right.
    + by apply elem_of_nil in He.
Qed.

(** *** The names of the test methods *)

Lemma nat_digits_S (f n : nat) (acc : string) :
  Py.nat_digits (S f) n acc
  = if n / 10 =? 0 then String (Py.digit_char (n mod 10)) acc
    else Py.nat_digits f (n / 10) (String (Py.digit_char (n mod 10)) acc).
Proof. reflexivity. Qed.

Lemma nat_digits_numeral (fuel n : nat) (acc : string) :
  Py.all_with numeral_char acc = true →
  Py.all_with numeral_char (Py.nat_digits fuel n acc) = true.
Proof.
  revert n acc. induction fuel as [|f IH]; intros n acc Hacc; [done|].
  assert (Py.all_with numeral_char
    (String (Py.digit_char (n mod 10)) acc) = true) as Hacc'.
  { cbn [Py.all_with]. rewrite numeral_char_digit, Hacc; [done|].
    apply Nat.mod_upper_bound. lia. }
  rewrite nat_digits_S. destruct (n / 10 =? 0); [done|]. by apply IH.
Qed.

Lemma int_digits_nat_digits (f n : nat) (acc : string) (prev_digit : bool) :
  n < 2 ^ S f →
  Py.int_digits 0 prev_digit (Py.nat_digits (S f) n acc)
  = Py.int_digits (Z.of_nat n) true acc.
Proof.
  revert n acc prev_digit. induction f as [|f IH]; intros n acc prev_digit Hn.
  - assert (n / 10 = 0) as Hq by (apply Nat.div_small; cbn in Hn; lia).
    rewrite nat_digits_S, Hq. cbn [Nat.eqb Py.int_digits].
    rewrite digit_val_char by (apply Nat.mod_upper_bound; lia).
    f_equal. rewrite Nat.mod_small by (cbn in Hn; lia). lia.
  - assert (Z.of_nat n = 10 * Z.of_nat (n / 10) + Z.of_nat (n mod 10))%Z as Hdm.
    { pose proof (Nat.div_mod_eq n 10). lia. }
    rewrite nat_digits_S. destruct (Nat.eqb_spec (n / 10) 0) as [Hq|Hq].
    + cbn [Py.int_digits]. rewrite digit_val_char by (apply Nat.mod_upper_bound; lia).
      f_equal. rewrite Hq in Hdm. lia.
    + rewrite IH.
      * cbn [Py.int_digits]. rewrite digit_val_char by (apply Nat.mod_upper_bound; lia).
        f_equal. lia.
      * apply Nat.Div0.div_lt_upper_bound.
        rewrite (Nat.pow_succ_r' 2 (S f)) in Hn. lia.
Qed.

Lemma int_digits_str_nat (n : nat) (prev_digit : bool) :
  Py.int_digits 0 prev_digit (Py.str_nat n) = Some (Z.of_nat n).
Proof.
  unfold Py.str_nat. rewrite int_digits_nat_digits; [done|].
  pose proof (Nat.pow_gt_lin_r 2 (S n)). lia.
Qed.

Lemma format_02d_numeral (n : Z) : Py.all_with numeral_char (Py.format_02d n) = true.
Proof.
  unfold Py.format_02d.
  pose proof (nat_digits_numeral (S (Z.abs_nat n)) (Z.abs_nat n) "" eq_refl) as Hb.
  fold (Py.str_nat (Z.abs_nat n)) in Hb.
  destruct (n <? 0)%Z; [by rewrite sapp_cons, sapp_nil_l; cbn [Py.all_with]; rewrite Hb|].
  destruct (_ <? 2); [|done].
  rewrite sapp_cons, sapp_nil_l. cbn [Py.all_with]. by rewrite Hb.
Qed.

(** [int("{:02d}".format(n)) == n] *)
Lemma int_format_02d (n : Z) : Py.int (Py.format_02d n) = Some n.
Proof.
  pose proof (format_02d_numeral n) as Hnum. unfold Py.int.
  rewrite int_numeral_strip by done. clear Hnum.
  pose proof (nat_digits_numeral (S (Z.abs_nat n)) (Z.abs_nat n) "" eq_refl) as Hb.
  fold (Py.str_nat (Z.abs_nat n)) in Hb.
  unfold Py.format_02d. destruct (Z.ltb_spec n 0) as [Hn|Hn].
  - rewrite sapp_cons, sapp_nil_l, int_digits_str_nat. cbn. f_equal. lia.
  - destruct (_ <? 2).
    + rewrite sapp_cons, sapp_nil_l.
      change (Py.int_digits 0 true (Py.str_nat (Z.abs_nat n)) = Some n).
      rewrite int_digits_str_nat. f_equal. lia.
    + pose proof (int_digits_str_nat (Z.abs_nat n) false) as Hd.
      destruct (Py.str_nat (Z.abs_nat n)) as [|c s]; [done|].
      cbn in Hb. apply andb_prop in Hb as [Hc _].
      apply numeral_char_cases in Hc.
      repeat apply elem_of_cons in Hc as [->|Hc];
        [done|rewrite Hd; f_equal; lia..|].
      by apply elem_of_nil in Hc.
Qed.

Lemma test_name_inj_all (n1 n2 : Z) : test_name n1 = test_name n2 → n1 = n2.
Proof.
  unfold test_name. intros Heq%(inj (String.app _)).
  pose proof (int_format_02d n1) as H1. rewrite Heq, int_format_02d in H1.
  congruence.
Qed.

(** The methods of the class after [create_test_funcs] on a class without
    methods, for any grouping. *)
Lemma create_test_funcs_lookup_all grouped name cq_files :
  create_test_funcs grouped ∅ !! name = Some cq_files ↔
  ∃ k fs, grouped !! k = Some fs ∧ length fs = 3 ∧
          name = test_name k ∧ cq_files = Py.sorted fs.
Proof.
  unfold create_test_funcs. revert name cq_files.
  apply (map_fold_weak_ind (λ r m, ∀ name cq_files,
           r !! name = Some cq_files ↔
           ∃ k fs, m !! k = Some fs ∧ length fs = 3 ∧
                   name = test_name k ∧ cq_files = Py.sorted fs)).
  - intros name cq_files. rewrite lookup_empty. split; [done|].
    intros (k & fs & Hk & _). by rewrite lookup_empty in Hk.
  - intros k fs m r Hk IH name cq_files.
    assert (Hother : (∃ k' fs', <[k:=fs]> m !! k' = Some fs' ∧ length fs' = 3 ∧
                         name = test_name k' ∧ cq_files = Py.sorted fs') ↔
                     (length fs = 3 ∧ name = test_name k ∧ cq_files = Py.sorted fs) ∨
                     (∃ k' fs', m !! k' = Some fs' ∧ length fs' = 3 ∧
                         name = test_name k' ∧ cq_files = Py.sorted fs')).
    { split.
      - intros (k' & fs' & Hk' & Hrest). destruct (decide (k' = k)) as [->|Hne].
        + rewrite lookup_insert_eq in Hk'. injection Hk' as <-. by left.
        + rewrite lookup_insert_ne in Hk' by done. right. eauto.
      - intros [Hrest|(k' & fs' & Hk' & Hrest)].
        + exists k, fs. by rewrite lookup_insert_eq.
        + exists k', fs'. split; [|done]. rewrite lookup_insert_ne; [done|congruence]. }
    rewrite Hother. clear Hother.
    destruct (length fs =? 3) eqn:Hlen.
    + apply Nat.eqb_eq in Hlen. destruct (decide (name = test_name k)) as [->|Hne].
      * rewrite lookup_insert_eq. split.
        -- intros [= <-]. by left.
        -- intros [(_ & _ & ->)|(k' & fs' & Hk' & _ & Hname & _)]; [done|].
           apply test_name_inj_all in Hname. subst. congruence.
      * rewrite lookup_insert_ne by done. rewrite IH. split; [by right|].
        by intros [(_ & ? & _)|?].
    + apply Nat.eqb_neq in Hlen. rewrite IH. split; [by right|].
      by intros [(? & _)|?].
Qed.

(** *** Discovery, grouping and the test methods together *)

Lemma in_range_digit (d : ascii) :
  Re.in_range "0" "9" d = true → ∃ n, n < 10 ∧ d = Py.digit_char n.
Proof.
  destruct d as [[] [] [] [] [] [] [] []]; vm_compute; intros Hd;
    first [discriminate Hd
          |exists 0; split; [lia|reflexivity] |exists 1; split; [lia|reflexivity]
          |exists 2; split; [lia|reflexivity] |exists 3; split; [lia|reflexivity]
          |exists 4; split; [lia|reflexivity] |exists 5; split; [lia|reflexivity]
          |exists 6; split; [lia|reflexivity] |exists 7; split; [lia|reflexivity]
          |exists 8; split; [lia|reflexivity] |exists 9; split; [lia|reflexivity]].
Qed.

Lemma int_two_digits (n1 n2 : nat) :
  n1 < 10 → n2 < 10 →
  Py.int (String (Py.digit_char n1) (String (Py.digit_char n2) ""))
  = Some (Z.of_nat (10 * n1 + n2)).
Proof.
  intros H1 H2.
  do 10 (destruct n1 as [|n1];
         [do 10 (destruct n2 as [|n2]; [vm_compute; reflexivity|]); lia|]).
  lia.
Qed.

Lemma basename_no_slash (f : string) : no_slash f → Py.basename f = f.
Proof.
  intros Hf. unfold Py.basename. rewrite after_last_slash_no_slash by done.
  by destruct f.
Qed.

(** A name that starts like a problem file has a number of two digits. *)
Lemma cq_name_prob_num (name rest : string) :
  cq_name name → no_slash (name +:+ rest) →
  ∃ n, n < 100 ∧ prob_num (name +:+ rest) = Some (Z.of_nat n).
Proof.
  intros (d1 & d2 & ext & -> & (n1 & Hn1 & ->)%in_range_digit
            & (n2 & Hn2 & ->)%in_range_digit & _) Hslash.
  exists (10 * n1 + n2). split; [lia|].
  unfold prob_num, get_prob_num. rewrite basename_no_slash by done.
  by apply int_two_digits.
Qed.

Lemma match_prob_num (f : string) :
  Re.match_ REGEX_PATTERN f = true → no_slash f →
  ∃ n, n < 100 ∧ prob_num f = Some (Z.of_nat n).
Proof.
  intros (name & rest & -> & Hname%lang_REGEX_PATTERN)%match_lang Hslash.
  by apply cq_name_prob_num.
Qed.

(** The files that [main] passes on all have a number. *)
Lemma main_numbers (set_order : gset string → list string) (cwd : string)
    (w : world) (names : list string) (matched : gset string) :
  (∀ s, set_order s ≡ₚ elements s) →
  dirs w !! cwd = Some names → Forall no_slash names →
  get_cq_files cwd w = (Ok matched, w) →
  Forall (λ f, ∃ n, n < 100 ∧ prob_num f = Some (Z.of_nat n)) (set_order matched).
Proof.
  intros Horder Hnames Hslash Hget.
  destruct (get_cq_files_matched cwd w names Hnames) as (matched' & Hget' & Hin & _).
  assert (matched' = matched) as -> by congruence.
  apply Forall_forall. intros f Hf. rewrite Horder in Hf.
  apply elem_of_elements, Hin in Hf as [Hf Hmatch].
  apply match_prob_num; [done|]. rewrite Forall_forall in Hslash. by apply Hslash.
Qed.

Lemma group_cq_files_spec (l : list string) :
  Forall (λ f, is_Some (prob_num f)) l →
  ∃ g, group_cq_files l = Ok g ∧
    ∀ k, g !! k = match filter (λ f, prob_num f = Some k) l with
                  | [] => None
                  | fs => Some fs
                  end.
Proof.
  intros Hl. destruct (group_loop_spec l Hl ∅) as (g & Hg & Hlook).
  exists g. split; [done|]. intros k. by rewrite Hlook, lookup_empty.
Qed.

(** The groups of two orders of the same files hold the same files. *)
Lemma group_cq_files_perm (l1 l2 : list string) (g1 g2 : gmap Z (list string)) :
  l1 ≡ₚ l2 → Forall (λ f, is_Some (prob_num f)) l1 →
  group_cq_files l1 = Ok g1 → group_cq_files l2 = Ok g2 →
  ∀ k fs, g1 !! k = Some fs → ∃ fs', g2 !! k = Some fs' ∧ fs ≡ₚ fs'.
Proof.
  intros Hperm Hl1 Hg1 Hg2 k fs Hk.
  assert (Hl2 : Forall (λ f, is_Some (prob_num f)) l2) by by rewrite <- Hperm.
  destruct (group_cq_files_spec l1 Hl1) as (g1' & Hg1' & Hlook1).
  destruct (group_cq_files_spec l2 Hl2) as (g2' & Hg2' & Hlook2).
  assert (g1' = g1) as -> by congruence. assert (g2' = g2) as -> by congruence.
  rewrite Hlook1 in Hk. rewrite Hlook2.
  assert (Hf : filter (λ f, prob_num f = Some k) l1
               ≡ₚ filter (λ f, prob_num f = Some k) l2) by by rewrite Hperm.
  destruct (filter _ l1) as [|x fs1]; [done|]. injection Hk as <-.
  destruct (filter _ l2) as [|y fs2]; [by apply Permutation_nil_r in Hf|].
  eauto.
Qed.

Lemma create_test_funcs_perm (g1 g2 : gmap Z (list string)) :
  (∀ k fs, g1 !! k = Some fs → ∃ fs', g2 !! k = Some fs' ∧ fs ≡ₚ fs') →
  (∀ k fs, g2 !! k = Some fs → ∃ fs', g1 !! k = Some fs' ∧ fs ≡ₚ fs') →
  create_test_funcs g1 ∅ = create_test_funcs g2 ∅.
Proof.
  intros H12 H21. apply map_eq. intros name. apply option_eq. intros cq_files.
  rewrite !create_test_funcs_lookup_all. split.
  - intros (k & fs & Hk & Hlen & -> & ->). destruct (H12 k fs Hk) as (fs' & Hk' & Hp).
    exists k, fs'. split; [done|]. split; [by rewrite <- Hp|]. split; [done|].
    by apply sorted_proper.
  - intros (k & fs & Hk & Hlen & -> & ->). destruct (H21 k fs Hk) as (fs' & Hk' & Hp).
    exists k, fs'. split; [done|]. split; [by rewrite <- Hp|]. split; [done|].
    by apply sorted_proper.
Qed.

Lemma group_cq_files_raises (good : list string) (bad : string) (rest : list string)
    (g0 : gmap Z (list string)) :
  Forall (λ f, is_Some (prob_num f)) good → prob_num bad = None →
  group_loop g0 (good ++ bad :: rest) = Raise (ValueError (get_prob_num bad)).
Proof.
  intros Hgood Hbad. revert g0. induction Hgood as [|f good [n Hn] _ IH]; intros g0.
  - cbn [app group_loop]. unfold group_step. fold (prob_num bad). by rewrite Hbad.
  - cbn [app group_loop]. unfold group_step at 1. fold (prob_num f). rewrite Hn.
    apply IH.
Qed.

(** X11: [get_cq_files] returns exactly the names of the directory that
    start with the name of a problem file ([Prob], two digits, [.in.txt],
    [.out.txt] or [.py]), whatever follows it; the order of the listing
    and repeated names make no difference, and nothing is changed. *)
Theorem get_cq_files_exact (target_dir : string) (w : world) (names : list string) :
  dirs w !! target_dir = Some names →
  ∃ matched,
    get_cq_files target_dir w = (Ok matched, w) ∧
    ∀ f, f ∈ matched ↔
         f ∈ names ∧ ∃ name rest, f = name +:+ rest ∧ cq_name name.
Proof.
  intros Hnames.
  destruct (get_cq_files_matched target_dir w names Hnames) as (matched & Hget & Hin & _).
  exists matched. split; [done|]. intros f. rewrite Hin, match_lang.
  by setoid_rewrite lang_REGEX_PATTERN.
Qed.

Lemma get_cq_files_exact_witness :
  ∃ matched,
    get_cq_files "." world_backup = (Ok matched, world_backup) ∧
    ∀ f, f ∈ matched ↔
         f ∈ ["Prob03.in.txt"; "Prob03.out.txt"; "Prob03.py"; "Prob03.py.bak"] ∧
         ∃ name rest, f = name +:+ rest ∧ cq_name name.
Proof.
  apply (get_cq_files_exact "." world_backup). vm_compute. reflexivity.
Defined.

(** X12: the pattern and the grouping fit: every name that [get_cq_files]
    keeps has two digits where [group_cq_files] reads the problem number,
    so [main] raises nothing on any directory and builds its tests without
    changing anything. *)
Theorem main_never_raises (set_order : gset string → list string) (cwd : string)
    (w : world) (names : list string) :
  (∀ s, set_order s ≡ₚ elements s) →
  dirs w !! cwd = Some names → Forall no_slash names →
  ∃ tests, main set_order cwd w = (Ok tests, w).
Proof.
  intros Horder Hnames Hslash.
  destruct (get_cq_files_matched cwd w names Hnames) as (matched & Hget & _).
  pose proof (main_numbers set_order cwd w names matched Horder Hnames Hslash Hget)
    as Hnum.
  destruct (group_cq_files_spec (set_order matched)) as (g & Hg & _).
  { eapply Forall_impl; [exact Hnum|]. intros f (n & _ & ->). by eexists. }
  exists (create_test_funcs g ∅).
  unfold main, mbind, M_bind, bind, lift. by rewrite Hget, Hg.
Qed.

Lemma main_never_raises_witness :
  ∃ tests, main ascending "." world_backup = (Ok tests, world_backup).
Proof.
  apply (main_never_raises ascending "." world_backup
           ["Prob03.in.txt"; "Prob03.out.txt"; "Prob03.py"; "Prob03.py.bak"]).
  - intros s. apply sorted_perm.
  - vm_compute. reflexivity.
  - repeat constructor; apply (bool_decide_unpack _); vm_compute; exact I.
Defined.

(** X13: the tests that [main] builds do not depend on the order in which
    the set of the files is iterated: the groups hold the same files, and
    each is sorted before it is bound. *)
Theorem main_set_order (order1 order2 : gset string → list string) (cwd : string)
    (w : world) (names : list string) :
  (∀ s, order1 s ≡ₚ elements s) → (∀ s, order2 s ≡ₚ elements s) →
  dirs w !! cwd = Some names → Forall no_slash names →
  main order1 cwd w = main order2 cwd w.
Proof.
  intros Ho1 Ho2 Hnames Hslash.
  destruct (get_cq_files_matched cwd w names Hnames) as (matched & Hget & _).
  assert (Hnum : ∀ order, (∀ s, order s ≡ₚ elements s) →
            Forall (λ f, is_Some (prob_num f)) (order matched)).
  { intros order Ho. eapply Forall_impl;
      [exact (main_numbers order cwd w names matched Ho Hnames Hslash Hget)|].
    intros f (n & _ & ->). by eexists. }
  destruct (group_cq_files_spec _ (Hnum order1 Ho1)) as (g1 & Hg1 & _).
  destruct (group_cq_files_spec _ (Hnum order2 Ho2)) as (g2 & Hg2 & _).
  assert (Hperm : order1 matched ≡ₚ order2 matched) by by rewrite Ho1, Ho2.
  unfold main, mbind, M_bind, bind, lift. rewrite Hget, Hg1, Hg2. unfold ret.
  do 2 f_equal. apply create_test_funcs_perm.
  - by apply (group_cq_files_perm (order1 matched) (order2 matched)); auto.
  - by apply (group_cq_files_perm (order2 matched) (order1 matched)); auto.
Qed.

Lemma main_set_order_witness :
  main ascending "." world_AC = main descending "." world_AC.
Proof.
  apply (main_set_order ascending descending "." world_AC
           ["Prob01.in.txt"; "Prob01.out.txt"; "Prob01.py"]).
  - intros s. apply sorted_perm.
  - intros s. unfold descending. by rewrite reverse_Permutation, sorted_perm.
  - vm_compute. reflexivity.
  - repeat constructor; apply (bool_decide_unpack _); vm_compute; exact I.
Defined.

(** X14: when the characters 4 and 5 of every file name are read as a
    number by [int], [group_cq_files] returns the dictionary that maps
    each number to the files with that number, in the order in which they
    were given; there is no entry with an empty list. *)
Theorem group_cq_files_partition (cq_files : list string) :
  Forall (λ f, is_Some (prob_num f)) cq_files →
  ∃ grouped,
    group_cq_files cq_files = Ok grouped ∧
    ∀ k, grouped !! k = match filter (λ f, prob_num f = Some k) cq_files with
                        | [] => None
                        | fs => Some fs
                        end.
Proof. apply group_cq_files_spec. Qed.

Lemma group_cq_files_partition_witness :
  ∃ grouped,
    group_cq_files ["Prob02.py"; "Prob01.py"; "Prob02.in.txt"] = Ok grouped ∧
    ∀ k, grouped !! k
         = match filter (λ f, prob_num f = Some k)
                   ["Prob02.py"; "Prob01.py"; "Prob02.in.txt"] with
           | [] => None
           | fs => Some fs
           end.
Proof.
  apply (group_cq_files_partition ["Prob02.py"; "Prob01.py"; "Prob02.in.txt"]).
  repeat constructor; eexists; vm_compute; reflexivity.
Defined.

(** X15: [group_cq_files] raises the [ValueError] of [int] at the first
    file whose characters 4 and 5 are not read as a number; the files
    after it are not looked at. *)
Theorem group_cq_files_value_error (good : list string) (bad : string)
    (rest : list string) :
  Forall (λ f, is_Some (prob_num f)) good → prob_num bad = None →
  group_cq_files (good ++ bad :: rest) = Raise (ValueError (get_prob_num bad)).
Proof. apply group_cq_files_raises. Qed.

Lemma group_cq_files_value_error_witness :
  group_cq_files ["Prob01.py"; "notes.txt"; "Prob02.py"] = Raise (ValueError "s.").
Proof.
  apply (group_cq_files_value_error ["Prob01.py"] "notes.txt" ["Prob02.py"]).
  - repeat constructor; eexists; vm_compute; reflexivity.
  - vm_compute. reflexivity.
Defined.

(** X16: the name of a test method determines the problem number: two
    numbers, of any size and sign, never get the same name, so no test
    replaces the test of another group. *)
Theorem test_name_injective (n1 n2 : Z) : n1 ≠ n2 → test_name n1 ≠ test_name n2.
Proof. intros Hne Heq. by apply Hne, test_name_inj_all. Qed.

Lemma test_name_injective_witness :
  (1 ≠ -1)%Z ∧ test_name 1 ≠ test_name (-1).
Proof.
  assert (H : (1 ≠ -1)%Z) by lia.
  split; [exact H|]. exact (test_name_injective 1 (-1) H).
Defined.


(** *** The verifier, in general *)

Lemma open_read_unreadable (path : string) (w : world) :
  ¬ readable path w →
  open_read path w = (Raise (IsADirectoryError path), w) ∨
  open_read path w = (Raise (FileNotFoundError path), w).
Proof.
  intros Hn. unfold open_read. case_bool_decide as Hdir; [by left|].
  destruct (files w !! path) as [raw|] eqn:Hraw; [|by right].
  destruct Hn. split; [done|by eexists].
Qed.




Lemma copyfile_file_to_directory (src dst : string) (w : world) :
  dst ∈ dom (dirs w) → is_Some (files w !! src) →
  ∃ path, copyfile src dst w = (Raise (IsADirectoryError path), w).
Proof.
  intros Hdst [raw Hraw]. unfold copyfile.
  destruct (bool_decide (src ∈ dom (dirs w))); [by eauto|].
  rewrite Hraw. unfold open_write. rewrite bool_decide_eq_true_2 by done. by eauto.
Qed.

(** X19: with the input file and the solution in different directories,
    [check_solution] never runs the solution, whatever the files are: the
    copy to the temporary directory is given the directory as the name of
    the copy, and when both files can be read it is this copy that ends
    the call, with [IsADirectoryError]. *)
Theorem check_solution_never_stages (sys_executable : string)
    (communicate : string → world → string * string)
    (in_file out_file solution_file : string) (w : world) :
  Py.dirname in_file ≠ Py.dirname solution_file →
  ∃ e w',
    check_solution sys_executable communicate in_file out_file solution_file w
      = (Raise e, w') ∧
    spawned w' = spawned w ∧
    (readable in_file w → readable out_file w →
     ∃ path, e = IsADirectoryError path).
Proof.
  intros Hdir. unfold check_solution, mbind, M_bind, bind.
  destruct (decide (readable in_file w)) as [Hin|Hin].
  2:{ unfold read_lines, mbind, M_bind, bind.
      destruct (open_read_unreadable in_file w Hin) as [-> | ->];
        eexists _, _; (split; [reflexivity|]); by split. }
  destruct (read_lines_readable in_file w Hin) as (raw & Hraw & ->).
  destruct (decide (readable out_file w)) as [Hout|Hout].
  2:{ unfold read_lines, mbind, M_bind, bind.
      destruct (open_read_unreadable out_file w Hout) as [-> | ->];
        eexists _, _; (split; [reflexivity|]); by split. }
  destruct (read_lines_readable out_file w Hout) as (raw' & Hraw' & ->).
  rewrite bool_decide_eq_true_2 by done.
  unfold stage, mbind, M_bind, bind, with_TemporaryDirectory.
  cbn [mkdtemp].
  match goal with |- context [copyfile in_file ?d ?w1] =>
    destruct (copyfile_file_to_directory in_file d w1) as [path ->]
  end.
  - cbn [dirs]. rewrite dom_insert_L. set_solver.
  - cbn [files]. by eexists.
  - eexists _, _. split; [reflexivity|]. split; [done|]. eauto.
Qed.

Lemma check_solution_never_stages_witness :
  ∃ e w',
    check_solution "python3" prints_AC_crlf
        "a/Prob01.in.txt" "a/Prob01.out.txt" "b/Prob01.py" world_two_dirs
      = (Raise e, w') ∧
    spawned w' = spawned world_two_dirs ∧
    (readable "a/Prob01.in.txt" world_two_dirs →
     readable "a/Prob01.out.txt" world_two_dirs →
     ∃ path, e = IsADirectoryError path).
Proof.
  apply (check_solution_never_stages "python3" prints_AC_crlf
           "a/Prob01.in.txt" "a/Prob01.out.txt" "b/Prob01.py" world_two_dirs).
  vm_compute. discriminate.
Defined.



(** ** The delta tells the two sequences *)

(** *** The blocks that [find_longest_match] returns *)

Section Matching.
Context {A : Type} `{EqDecision A}.
Implicit Types (a b : list A).







End Matching.

(** *** The matching blocks are in order *)





Section Blocks.
Context {A : Type} `{EqDecision A}.
Implicit Types (a b : list A).











End Blocks.

(** *** The lines of the delta *)




















(** *** The delta as a whole *)








(** *** What the verifier accepts *)






(** *** The tests that [main] builds *)

(** The group of a problem number holds the files of that number, in some
    order. *)
Lemma main_group (order : gset string → list string) (cwd : string) (w : world)
    (names : list string) (matched : gset string) (n : nat) :
  (∀ s, order s ≡ₚ elements s) →
  dirs w !! cwd = Some names →
  get_cq_files cwd w = (Ok matched, w) →
  filter (λ f, prob_num f = Some (Z.of_nat n)) (order matched)
  ≡ₚ problem_files names n.
Proof.
  intros Horder Hnames Hget. rewrite (get_cq_files_spec cwd w names Hnames) in Hget.
  injection Hget as <-. unfold problem_files.
  rewrite <- (list_filter_filter (λ f, Re.match_ REGEX_PATTERN f = true)
                (λ f, prob_num f = Some (Z.of_nat n))).
  apply NoDup_Permutation.
  - apply NoDup_filter. rewrite Horder. apply NoDup_elements.
  - apply NoDup_filter, NoDup_filter, NoDup_remove_dups.
  - intros f. rewrite !list_elem_of_filter, Horder, elem_of_elements,
      elem_of_list_to_set, list_elem_of_filter, elem_of_remove_dups. tauto.
Qed.

(** X23: what [main] does before it hands over to [unittest]: from the
    listing of the working directory it makes one test for each problem
    number that exactly three different names of the listing carry, among
    the names that the pattern matches; the test is named after the
    number and bound to these three names in sorted order.  A number
    with fewer or more such names, as with a copy of a file beside the
    three, gets no test. *)
Theorem main_tests (set_order : gset string → list string) (cwd : string)
    (w : world) (names : list string) :
  (∀ s, set_order s ≡ₚ elements s) →
  dirs w !! cwd = Some names → Forall no_slash names →
  ∃ tests,
    main set_order cwd w = (Ok tests, w) ∧
    ∀ name cq_files,
      tests !! name = Some cq_files ↔
      ∃ n, n < 100 ∧ name = test_name (Z.of_nat n) ∧
           length (problem_files names n) = 3 ∧
           cq_files = Py.sorted (problem_files names n).
Proof.
  intros Horder Hnames Hslash.
  destruct (get_cq_files_matched cwd w names Hnames) as (matched & Hget & _).
  pose proof (main_numbers set_order cwd w names matched Horder Hnames Hslash Hget)
    as Hnum.
  destruct (group_cq_files_spec (set_order matched)) as (g & Hg & Hlook).
  { eapply Forall_impl; [exact Hnum|]. intros f (n & _ & ->). by eexists. }
  exists (create_test_funcs g ∅). split.
  { unfold main, mbind, M_bind, bind, lift. by rewrite Hget, Hg. }
  intros name cq_files. rewrite create_test_funcs_lookup_all. split.
  - intros (k & fs & Hk & Hlen & -> & ->). rewrite Hlook in Hk.
    destruct (filter _ (set_order matched)) as [|f fs'] eqn:Hfilter; [done|].
    injection Hk as <-.
    assert (Hf : f ∈ filter (λ f, prob_num f = Some k) (set_order matched)).
    { rewrite Hfilter. by left. }
    apply list_elem_of_filter in Hf as [Hfk Hf].
    rewrite Forall_forall in Hnum. destruct (Hnum f Hf) as (n & Hn & Hfn).
    assert (k = Z.of_nat n) as -> by congruence.
    pose proof (main_group set_order cwd w names matched n Horder Hnames Hget) as Hperm.
    rewrite Hfilter in Hperm. exists n. split; [done|]. split; [done|].
    split; [by rewrite <- Hperm|by apply sorted_proper].
  - intros (n & Hn & -> & Hlen & ->).
    pose proof (main_group set_order cwd w names matched n Horder Hnames Hget) as Hperm.
    exists (Z.of_nat n), (filter (λ f, prob_num f = Some (Z.of_nat n)) (set_order matched)).
    rewrite Hlook. split; [|split; [by rewrite Hperm|split; [done|]]].
    + destruct (filter _ (set_order matched)) as [|f fs'] eqn:Hfilter; [|done].
      apply Permutation_nil_l in Hperm. by rewrite <- Hperm in Hlen.
    + symmetry. by apply sorted_proper.
Qed.

Lemma main_tests_witness :
  ∃ tests,
    main ascending "." world_backup = (Ok tests, world_backup) ∧
    ∀ name cq_files,
      tests !! name = Some cq_files ↔
      ∃ n, n < 100 ∧ name = test_name (Z.of_nat n) ∧
           length (problem_files ["Prob03.in.txt"; "Prob03.out.txt"; "Prob03.py";
                                  "Prob03.py.bak"] n) = 3 ∧
           cq_files = Py.sorted (problem_files ["Prob03.in.txt"; "Prob03.out.txt";
                                                "Prob03.py"; "Prob03.py.bak"] n).
Proof.
  apply (main_tests ascending "." world_backup
           ["Prob03.in.txt"; "Prob03.out.txt"; "Prob03.py"; "Prob03.py.bak"]).
  - intros s. apply sorted_perm.
  - vm_compute. reflexivity.
  - repeat constructor; apply (bool_decide_unpack _); vm_compute; exact I.
Defined.
